(** * varlink command-line client: command dispatch and call resolution

    A shallow embedding of [main.go]: the three command handlers
    ([varlinkInfo], [varlinkHelp], [varlinkCall]), [printUsage], [errPrintf]
    and [main], together with a model of the collaborators they consume
    (the [flag] package, the varlink connection, the JSON and colour
    libraries), and the properties of the specification stated over them. *)

From Stdlib Require Import ZArith List Bool Lia.
From Stdlib Require Import Strings.String Strings.Ascii.
Import ListNotations.

Open Scope list_scope.
Open Scope string_scope.

(** ** Strings as Go has them: byte sequences, indices in [Z] *)

Module Strings.

(** [len(s)] *)
Definition len (s : string) : Z := Z.of_nat (String.length s).

(** [strings.LastIndex(s, substr)]: the byte index of the last occurrence of
    [substr] in [s], or [-1].  The scan goes left to right and remembers the
    last position at which [substr] is a prefix of the remaining text. *)
Fixpoint LastIndex_from (s substr : string) (i acc : Z) : Z :=
  match s with
  | EmptyString => if String.eqb substr EmptyString then i else acc
  | String _ s' =>
      LastIndex_from s' substr (i + 1)
        (if String.prefix substr s then i else acc)
  end.

Definition LastIndex (s substr : string) : Z :=
  LastIndex_from s substr 0 (-1).

(** [s[:hi]] and [s[lo:]] for indices within [0 .. len(s)]. *)
Definition slice_to (s : string) (hi : Z) : string :=
  String.substring 0 (Z.to_nat hi) s.

Definition slice_from (s : string) (lo : Z) : string :=
  String.substring (Z.to_nat lo) (String.length s - Z.to_nat lo) s.

(** Does the byte [c] occur in [s]? *)
Fixpoint contains_byte (c : ascii) (s : string) : bool :=
  match s with
  | EmptyString => false
  | String d s' => Ascii.eqb d c || contains_byte c s'
  end.

End Strings.

Definition slash : ascii := "/"%char.

(** ** Target resolution

    [varlinkCall] (lines 80-93) and [varlinkHelp] (lines 186-207) resolve the
    positional argument with the same three statements:
    [li := strings.LastIndex(uri, "/")], [uri[:li]] and [uri[li+1:]]. *)

Definition splitTarget (uri : string) : option (string * string) :=
  let li := Strings.LastIndex uri "/" in
  if Z.eqb li (-1) then None
  else Some (Strings.slice_to uri li, Strings.slice_from uri (li + 1)).

(** The reference definition of the specification: split at the last
    occurrence of [/]; everything before is the address, everything after
    the interface[.method] reference; no [/] is an error. *)
Fixpoint resolve_reference (s : string) : option (string * string) :=
  match s with
  | EmptyString => None
  | String c s' =>
      match resolve_reference s' with
      | Some (addr, ref) => Some (String c addr, ref)
      | None => if Ascii.eqb c slash then Some (EmptyString, s') else None
      end
  end.

(** ** The [flag] package

    The part of Go's standard [flag] package the program exercises:
    [FlagSet.Parse] over flags declared with [BoolVar] and [StringVar].
    The package is not part of [main.go]; the model follows the documented
    behaviour of [FlagSet.parseOne]: an argument is a flag when it has at
    least two bytes and starts with [-]; one or two leading dashes are
    dropped; [--] alone ends the flags; a name that is empty or starts with
    [-] or [=] is a syntax error; [name=value] is cut at the first [=]; a
    boolean flag needs no value, any other takes the next argument.

    Registration ([BoolVar], [StringVar]) is modelled as in the package
    [main.go] was written against, before Go 1.17: a flag may be declared
    under any name.  From Go 1.17 on, [FlagSet.Var] panics on a name that
    starts with [-] or contains [=] ([registration_panics] below); with that
    package the declaration at line 54 of [main.go] panics and no run of
    [varlinkCall] gets past it.  What is proved of [varlinkCall], and of
    [main] on the command [call], is proved for the earlier package; the
    call flow after the flags, [varlinkCall_body], does not depend on the
    registration. *)

Module Flag.

Inductive FlagKind := BoolFlag | StringFlag.

Record Flag := mkFlag {
  Name : string;
  Kind : FlagKind;
  DefValue : string;
  Usage : string
}.

Record FlagSet := mkFlagSet {
  SetName : string;
  Formal : list Flag
}.

Inductive FlagValue := BoolValue (b : bool) | StringValue (s : string).

(** The values set so far, most recent first. *)
Definition Actual := list (string * FlagValue).

Inductive FlagError :=
| ErrBadSyntax (arg : string)
| ErrHelp
| ErrNotDefined (name : string)
| ErrInvalidBool (value name : string)
| ErrNeedsArgument (name : string).

(** [strconv.ParseBool] *)
Definition ParseBool (str : string) : option bool :=
  if existsb (String.eqb str) ["1"; "t"; "T"; "TRUE"; "true"; "True"] then Some true
  else if existsb (String.eqb str) ["0"; "f"; "F"; "FALSE"; "false"; "False"] then Some false
  else None.

(** The check [FlagSet.Var] makes on a name from Go 1.17 on. *)
Definition registration_panics (name : string) : bool :=
  String.prefix "-" name || Strings.contains_byte "="%char name.

(** [f.formal[name]] *)
Definition lookup (formal : list Flag) (name : string) : option Flag :=
  find (fun fl => String.eqb (Name fl) name) formal.

(** The loop of [parseOne] that cuts [name=value] at the first [=] found
    from index 1 on; [cut_equals] scans the text after the first byte. *)
Fixpoint cut_equals (s : string) : string * option string :=
  match s with
  | EmptyString => (EmptyString, None)
  | String c s' =>
      if Ascii.eqb c "="%char then (EmptyString, Some s')
      else let (n, v) := cut_equals s' in (String c n, v)
  end.

(** What [parseOne] finds at the head of the remaining arguments. *)
Inductive Head :=
| NonFlag                                   (* not a flag: parsing stops *)
| Terminator                                (* [--]: dropped, parsing stops *)
| Failure (e : FlagError)
| BoolArg (name : string) (value : option string)
| StringArg (name : string) (value : option string).

Definition classify (formal : list Flag) (s : string) : Head :=
  match s with
  | String c0 (String c1 t) =>
      if negb (Ascii.eqb c0 "-"%char) then NonFlag
      else if Ascii.eqb c1 "-"%char && String.eqb t EmptyString then Terminator
      else
        let name := if Ascii.eqb c1 "-"%char then t else String c1 t in
        match name with
        | EmptyString => Failure (ErrBadSyntax s)
        | String n0 nt =>
            if Ascii.eqb n0 "-"%char || Ascii.eqb n0 "="%char
            then Failure (ErrBadSyntax s)
            else
              let (nt', value) := cut_equals nt in
              let name := String n0 nt' in
              match lookup formal name with
              | None =>
                  if String.eqb name "help" || String.eqb name "h"
                  then Failure ErrHelp
                  else Failure (ErrNotDefined name)
              | Some fl =>
                  match Kind fl with
                  | BoolFlag => BoolArg name value
                  | StringFlag => StringArg name value
                  end
              end
        end
  | _ => NonFlag
  end.

Inductive ParseResult :=
| Parsed (actual : Actual) (rest : list string)
| ParseFailed (e : FlagError).

(** [FlagSet.Parse]: [parseOne] repeated until it sees no flag. *)
Fixpoint Parse (formal : list Flag) (args : list string) (actual : Actual)
  : ParseResult :=
  match args with
  | [] => Parsed actual []
  | s :: rest =>
      match classify formal s with
      | NonFlag => Parsed actual args
      | Terminator => Parsed actual rest
      | Failure e => ParseFailed e
      | BoolArg name None =>
          Parse formal rest ((name, BoolValue true) :: actual)
      | BoolArg name (Some v) =>
          match ParseBool v with
          | Some b => Parse formal rest ((name, BoolValue b) :: actual)
          | None => ParseFailed (ErrInvalidBool v name)
          end
      | StringArg name (Some v) =>
          Parse formal rest ((name, StringValue v) :: actual)
      | StringArg name None =>
          match rest with
          | v :: rest' => Parse formal rest' ((name, StringValue v) :: actual)
          | [] => ParseFailed (ErrNeedsArgument name)
          end
      end
  end.

(** The variable bound by [BoolVar(&x, name, def, _)] after parsing. *)
Fixpoint boolVar (actual : Actual) (name : string) (def : bool) : bool :=
  match actual with
  | [] => def
  | (n, v) :: older =>
      if String.eqb n name
      then match v with BoolValue b => b | StringValue _ => boolVar older name def end
      else boolVar older name def
  end.

(** The variable bound by [StringVar(&x, name, def, _)] after parsing. *)
Fixpoint stringVar (actual : Actual) (name : string) (def : string) : string :=
  match actual with
  | [] => def
  | (n, v) :: older =>
      if String.eqb n name
      then match v with StringValue s => s | BoolValue _ => stringVar older name def end
      else stringVar older name def
  end.

(** [f.Arg(i)]: the i-th remaining argument, or the empty string. *)
Definition Arg (rest : list string) (i : nat) : string := nth i rest EmptyString.

(** A list made only of complete flag occurrences of [formal]: each head is
    a flag, and a string flag written without [=] is followed by its value. *)
Inductive OnlyFlags (formal : list Flag) : list string -> Prop :=
| OnlyFlags_nil : OnlyFlags formal []
| OnlyFlags_bool s name value rest :
    classify formal s = BoolArg name value ->
    (forall v, value = Some v -> ParseBool v <> None) ->
    OnlyFlags formal rest -> OnlyFlags formal (s :: rest)
| OnlyFlags_string_eq s name v rest :
    classify formal s = StringArg name (Some v) ->
    OnlyFlags formal rest -> OnlyFlags formal (s :: rest)
| OnlyFlags_string_next s name v rest :
    classify formal s = StringArg name None ->
    OnlyFlags formal rest -> OnlyFlags formal (s :: v :: rest).

End Flag.

(** ** The collaborators: transport, JSON and colour libraries *)

(** A Go [error] as the program uses it: the text [%v] prints. *)
Definition error := string.

Inductive Result (A : Type) :=
| Ok (a : A)
| Err (e : error).
Arguments Ok {A} a.
Arguments Err {A} e.

(** [json.RawMessage]: a byte slice; [None] below stands for the nil slice. *)
Definition RawMessage := string.

(** A decoded JSON value ([interface{}] filled by [encoding/json]). *)
#[local] Set Warnings "-register-all".
Inductive JSON :=
| JNull
| JBool (b : bool)
| JNumber (literal : string)
| JString (s : string)
| JArray (items : list JSON)
| JObject (fields : list (string * JSON)).

(** [map[string]interface{}]; the nil map is [None]. *)
Definition JMap := option (list (string * JSON)).

(** The dynamic type held by the [Parameters interface{}] field of a
    [varlink.Error]: a [*json.RawMessage] (possibly the nil pointer), or a
    value of any other type (the nil interface included). *)
Inductive ErrorParameters :=
| RawPointer (p : option RawMessage)
| OtherDynamicType.

Record VarlinkError := mkVarlinkError {
  EName : string;
  EParameters : ErrorParameters
}.

(** What one call of the reply accessor returned by [Send] does: fill the
    reply, report a structured protocol error, report another error, or
    never return (no reply arrives and the context is not cancelled). *)
Inductive RecvResult :=
| RecvReply (retval : JMap)
| RecvVarlinkError (e : VarlinkError)
| RecvError (e : error)
| RecvNever.

Record ServiceInfo := mkServiceInfo {
  vendor : string;
  product : string;
  version : string;
  url : string;
  interfaces : list string
}.

(** The methods of a [varlink.Connection] the program calls.  [Send],
    [GetInfo] and [GetInterfaceDescription], like the two dialing functions
    of [World] below, are taken as returning an answer or an error; only
    the reply accessor has the case of never returning.  Runs in which one
    of the other calls waits on the peer forever are outside the model. *)
Record Connection := mkConnection {
  Send : string -> option RawMessage -> Z -> Result RecvResult;
  GetInterfaceDescription : string -> Result string;
  GetInfo : Result ServiceInfo
}.

Inductive Attribute := Bold | FgRed | FgCyan | FgMagenta.

(** [colorjson.Formatter], the fields [varlinkCall] sets. *)
Record Formatter := mkFormatter {
  Indent : Z;
  KeyColor : Attribute;
  StringColor : Attribute;
  NumberColor : Attribute;
  BoolColor : Attribute;
  NullColor : Attribute
}.

(** Everything outside the program that a run depends on.  The colour-JSON
    formatter is taken whole, as a function of [color.NoColor], the
    formatter settings and the value; how it colours through the colour
    library is not modelled. *)
Record World := mkWorld {
  Args0 : string;                              (* os.Args[0] *)
  TERM : string;                               (* os.Getenv("TERM") *)
  NoColor0 : bool;                             (* color.NoColor at start *)
  varlink_Oneway : Z;                          (* the constant varlink.Oneway *)
  NewBridge : string -> Result Connection;     (* varlink.NewBridge *)
  NewConnection : string -> Result Connection; (* varlink.NewConnection *)
  (* json.Unmarshal([]byte(s), &params) with params a json.RawMessage *)
  json_Unmarshal_raw : string -> Result RawMessage;
  (* the map left by json.Unmarshal(raw, &param), its error dropped *)
  json_Unmarshal_map : RawMessage -> JMap;
  (* string(c) for c, _ := f.Marshal(v), under the given color.NoColor *)
  colorjson_Marshal : bool -> Formatter -> JMap -> string;
  color_wrap : Attribute -> string -> string;  (* the escape-code wrapping *)
  flag_PrintDefaults : list Flag.Flag -> string;
  flag_errorText : Flag.FlagError -> string
}.

(** ** Observable behaviour of one process run *)

Inductive Event :=
| EvNewBridge (command : string)
| EvNewConnection (address : string)
| EvSend (method : string) (params : option RawMessage) (flags : Z)
| EvRecv
| EvGetInterfaceDescription (iface : string)
| EvGetInfo
| EvStderr (text : string)
| EvStdout (text : string).

Inductive Status :=
| Exited (code : Z)
| Blocked
| Panicked.

Inductive Res (A : Type) :=
| Ret (a : A)
| Halt (st : Status).
Arguments Ret {A} a.
Arguments Halt {A} st.

(** A computation: the events it performed, and its value or the way the
    process ended inside it. *)
Definition M (A : Type) : Type := list Event * Res A.

Definition ret {A} (a : A) : M A := ([], Ret a).

Definition bind {A B} (m : M A) (k : A -> M B) : M B :=
  match m with
  | (t, Ret a) => let (t', r) := k a in ((t ++ t')%list, r)
  | (t, Halt st) => (t, Halt st)
  end.

Notation "x <- m ;; k" := (bind m (fun x => k))
  (at level 61, m at next level, right associativity).
Notation "m ;; k" := (bind m (fun _ => k))
  (at level 61, right associativity).

Definition emit (e : Event) : M unit := ([e], Ret tt).
Definition os_Exit {A} (code : Z) : M A := ([], Halt (Exited code)).
Definition panic {A} : M A := ([], Halt Panicked).
Definition block {A} : M A := ([], Halt Blocked).

Definition trace {A} (m : M A) : list Event := fst m.

(** The process status once [main] is over: returning from it exits 0. *)
Definition status (m : M unit) : Status :=
  match snd m with
  | Ret _ => Exited 0
  | Halt st => st
  end.

Fixpoint stdout_of (t : list Event) : string :=
  match t with
  | [] => EmptyString
  | EvStdout s :: t' => s ++ stdout_of t'
  | _ :: t' => stdout_of t'
  end.

Definition is_dial (e : Event) : bool :=
  match e with
  | EvNewBridge _ | EvNewConnection _ => true
  | _ => false
  end.

Definition is_send (e : Event) : bool :=
  match e with
  | EvSend _ _ _ => true
  | _ => false
  end.

Definition is_transport (e : Event) : bool :=
  match e with
  | EvStderr _ | EvStdout _ => false
  | _ => true
  end.

(** ** The program *)

Definition nl : string := String (Ascii.ascii_of_nat 10) EmptyString.
Definition tab : string := String (Ascii.ascii_of_nat 9) EmptyString.

(** The package-level variables [errorBoldRed] and [bridge], and the
    library's [color.NoColor], as [main] leaves them for the handlers. *)
Record Globals := mkGlobals {
  bridge : string;
  errorBoldRed : string;
  NoColor : bool
}.

Definition Fprint_stderr (text : string) : M unit := emit (EvStderr text).
Definition Print_stdout (text : string) : M unit := emit (EvStdout text).

(** [color.New(a).Sprint(s)] *)
Definition Sprint (w : World) (noColor : bool) (a : Attribute) (s : string) : string :=
  if noColor then s else color_wrap w a s.

(** [errPrintf(format, a...)], with the formatted text already built. *)
Definition errPrintf (g : Globals) (text : string) : M unit :=
  Fprint_stderr (errorBoldRed g ++ " ") ;;
  Fprint_stderr text.

(** The flags of [flag.CommandLine], declared in [main]. *)
Definition commandLine : Flag.FlagSet :=
  Flag.mkFlagSet "" [
    Flag.mkFlag "debug" Flag.BoolFlag "false" "Enable debug output";
    Flag.mkFlag "bridge" Flag.StringFlag "" "Use bridge for connection";
    Flag.mkFlag "color" Flag.StringFlag "auto"
      "colorize output [default: auto]  [possible values: on, off, auto]"
  ].

(** [printUsage(set, arg_help)]; [None] is the nil set. *)
Definition printUsage (w : World) (set : option Flag.FlagSet) (arg_help : string)
  : M unit :=
  match set with
  | None =>
      Fprint_stderr ("Usage: " ++ Args0 w ++ " [GLOBAL OPTIONS] COMMAND ..." ++ nl)
  | Some fs =>
      Fprint_stderr ("Usage: " ++ Args0 w ++ " [GLOBAL OPTIONS] "
                     ++ Flag.SetName fs ++ " [OPTIONS] " ++ arg_help ++ nl)
  end ;;
  Fprint_stderr (nl ++ "Global Options:" ++ nl) ;;
  Fprint_stderr (flag_PrintDefaults w (Flag.Formal commandLine)) ;;
  match set with
  | None =>
      Fprint_stderr (nl ++ "Commands:" ++ nl) ;;
      Fprint_stderr ("  info" ++ tab ++ "Print information about a service" ++ nl) ;;
      Fprint_stderr ("  help" ++ tab
                     ++ "Print interface description or service information" ++ nl) ;;
      Fprint_stderr ("  call" ++ tab ++ "Call a method" ++ nl)
  | Some fs =>
      Fprint_stderr (nl ++ "Options:" ++ nl) ;;
      Fprint_stderr (flag_PrintDefaults w (Flag.Formal fs))
  end ;;
  os_Exit 1.

(** [set.Parse(args)] for a set created with [flag.ExitOnError] whose
    [Usage] is [usage]: a failure prints its message (none for the help
    request), calls [usage], and then exits 2 (0 for the help request). *)
Definition FlagSet_Parse (w : World) (fs : Flag.FlagSet) (usage : M unit)
    (args : list string) : M (Flag.Actual * list string) :=
  match Flag.Parse (Flag.Formal fs) args [] with
  | Flag.Parsed actual rest => ret (actual, rest)
  | Flag.ParseFailed e =>
      match e with
      | Flag.ErrHelp => ret tt
      | _ => Fprint_stderr (flag_errorText w e ++ nl)
      end ;;
      usage ;;
      os_Exit (match e with Flag.ErrHelp => 0 | _ => 2 end)
  end.

Definition when (b : bool) (m : M unit) : M unit := if b then m else ret tt.

(** [con, err = varlink.NewBridge(bridge)] and its error branch. *)
Definition connectBridge (w : World) (g : Globals) : M Connection :=
  emit (EvNewBridge (bridge g)) ;;
  match NewBridge w (bridge g) with
  | Err e =>
      errPrintf g ("Cannot connect with bridge '" ++ bridge g ++ "': " ++ e ++ nl) ;;
      os_Exit 2
  | Ok con => ret con
  end.

(** [con, err = varlink.NewConnection(ctx, address)] and its error branch. *)
Definition connectAddress (w : World) (g : Globals) (address : string)
  : M Connection :=
  emit (EvNewConnection address) ;;
  match NewConnection w address with
  | Err e =>
      errPrintf g ("Cannot connect to '" ++ address ++ "': " ++ e ++ nl) ;;
      os_Exit 2
  | Ok con => ret con
  end.

(** *** [varlinkCall] *)

Definition callFlags : Flag.FlagSet :=
  Flag.mkFlagSet "help" [
    Flag.mkFlag "-oneway" Flag.BoolFlag "false" "Use bridge for connection";
    Flag.mkFlag "help" Flag.BoolFlag "false" "Prints help information"
  ].

Definition callUsage (w : World) : M unit :=
  printUsage w (Some callFlags) "<[ADDRESS/]INTERFACE.METHOD> [ARGUMENTS]".

(** The formatter [f] configured at lines 130-136. *)
Definition callFormatter : Formatter :=
  mkFormatter 2 FgCyan FgMagenta FgMagenta FgMagenta FgMagenta.

(** Lines 72-100: the connection and the method name. *)
Definition callTarget (w : World) (g : Globals) (rest : list string)
  : M (Connection * string) :=
  if negb (Z.eqb (Strings.len (bridge g)) 0) then
    con <- connectBridge w g ;;
    ret (con, Flag.Arg rest 0)
  else
    let uri := Flag.Arg rest 0 in
    when (String.eqb uri "") (callUsage w) ;;
    match splitTarget uri with
    | None =>
        errPrintf g ("Invalid address '" ++ uri ++ "'" ++ nl) ;;
        os_Exit 2
    | Some (address, methodName) =>
        con <- connectAddress w g address ;;
        ret (con, methodName)
    end.

(** Lines 101-112: the parameter string turned into [params]. *)
Definition callParameters (w : World) (g : Globals) (parameters : string)
  : M (option RawMessage) :=
  if String.eqb parameters "" then ret None
  else
    match json_Unmarshal_raw w parameters with
    | Err e =>
        errPrintf g ("Cannot parse parameters: " ++ e ++ nl) ;;
        os_Exit 2
    | Ok raw => ret (Some raw)
    end.

(** Lines 114-118. *)
Definition callFlagBits (w : World) (oneway : bool) : Z :=
  let flags := 0%Z in
  if oneway then Z.lor flags (varlink_Oneway w) else flags.

(** Lines 138-154: rendering of what the reply accessor returned. *)
Definition callRender (w : World) (g : Globals) (methodName : string)
    (r : RecvResult) : M unit :=
  let f := callFormatter in
  match r with
  | RecvNever => block
  | RecvVarlinkError e =>
      errPrintf g ("Call failed with error: "
                   ++ Sprint w (NoColor g) FgRed (EName e) ++ nl) ;;
      match EParameters e with
      | OtherDynamicType => panic
      | RawPointer None => ret tt
      | RawPointer (Some raw) =>
          let param := json_Unmarshal_map w raw in
          Fprint_stderr (colorjson_Marshal w (NoColor g) f param ++ nl)
      end ;;
      os_Exit 2
  | RecvError e =>
      errPrintf g ("Error calling '" ++ methodName ++ "': " ++ e ++ nl) ;;
      os_Exit 2
  | RecvReply retval =>
      Print_stdout (colorjson_Marshal w (NoColor g) f retval ++ nl)
  end.

(** Lines 114-154: the request is sent, the reply accessor [recv] is called
    and its result rendered. *)
Definition callInvoke (w : World) (g : Globals) (oneway : bool)
    (con : Connection) (methodName : string) (params : option RawMessage)
  : M unit :=
  let flags := callFlagBits w oneway in
  emit (EvSend methodName params flags) ;;
  match Send con methodName params flags with
  | Err e =>
      errPrintf g ("Error calling '" ++ methodName ++ "': " ++ e ++ nl) ;;
      os_Exit 2
  | Ok recv =>
      emit EvRecv ;;
      callRender w g methodName recv
  end.

(** Lines 66-155: [varlinkCall] once its flags are parsed; [rest] are the
    arguments left after the flags. *)
Definition varlinkCall_body (w : World) (g : Globals) (oneway : bool)
    (rest : list string) : M unit :=
  tgt <- callTarget w g rest ;;
  params <- callParameters w g (Flag.Arg rest 1) ;;
  callInvoke w g oneway (fst tgt) (snd tgt) params.

Definition varlinkCall (w : World) (g : Globals) (args : list string) : M unit :=
  parsed <- FlagSet_Parse w callFlags (callUsage w) args ;;
  let oneway := Flag.boolVar (fst parsed) "-oneway" false in
  let help := Flag.boolVar (fst parsed) "help" false in
  when help (callUsage w) ;;
  varlinkCall_body w g oneway (snd parsed).

(** *** [varlinkHelp] *)

Definition helpFlags : Flag.FlagSet :=
  Flag.mkFlagSet "help" [
    Flag.mkFlag "help" Flag.BoolFlag "false" "Prints help information"
  ].

Definition helpUsage (w : World) : M unit :=
  printUsage w (Some helpFlags) "<[ADDRESS/]INTERFACE>".

Definition helpTarget (w : World) (g : Globals) (rest : list string)
  : M (Connection * string) :=
  if negb (Z.eqb (Strings.len (bridge g)) 0) then
    con <- connectBridge w g ;;
    ret (con, Flag.Arg rest 0)
  else
    let uri := Flag.Arg rest 0 in
    when (String.eqb uri "" && String.eqb (bridge g) "")
      (errPrintf g ("No ADDRESS or activation or bridge" ++ nl ++ nl) ;;
       helpUsage w) ;;
    match splitTarget uri with
    | None =>
        errPrintf g ("Invalid address '" ++ uri ++ "'" ++ nl) ;;
        os_Exit 2
    | Some (address, interfaceName) =>
        con <- connectAddress w g address ;;
        ret (con, interfaceName)
    end.

Definition varlinkHelp (w : World) (g : Globals) (args : list string) : M unit :=
  parsed <- FlagSet_Parse w helpFlags (helpUsage w) args ;;
  let help := Flag.boolVar (fst parsed) "help" false in
  when help (helpUsage w) ;;
  tgt <- helpTarget w g (snd parsed) ;;
  let con := fst tgt in
  let interfaceName := snd tgt in
  emit (EvGetInterfaceDescription interfaceName) ;;
  match GetInterfaceDescription con interfaceName with
  | Err e =>
      errPrintf g ("Cannot get interface description for '" ++ interfaceName
                   ++ "': " ++ e ++ nl) ;;
      os_Exit 2
  | Ok description => Print_stdout (description ++ nl)
  end.

(** *** [varlinkInfo] *)

Definition infoFlags : Flag.FlagSet :=
  Flag.mkFlagSet "info" [
    Flag.mkFlag "help" Flag.BoolFlag "false" "Prints help information"
  ].

Definition infoUsage (w : World) : M unit :=
  printUsage w (Some infoFlags) "[ADDRESS]".

(** Lines 237-257: the connection and the display address. *)
Definition infoTarget (w : World) (g : Globals) (rest : list string)
  : M (Connection * string) :=
  if negb (Z.eqb (Strings.len (bridge g)) 0) then
    con <- connectBridge w g ;;
    ret (con, "bridge:" ++ bridge g)
  else
    let address := Flag.Arg rest 0 in
    when (String.eqb address "" && String.eqb (bridge g) "")
      (errPrintf g ("No ADDRESS or activation or bridge" ++ nl ++ nl) ;;
       infoUsage w) ;;
    con <- connectAddress w g address ;;
    ret (con, address).

Definition varlinkInfo (w : World) (g : Globals) (args : list string) : M unit :=
  parsed <- FlagSet_Parse w infoFlags (infoUsage w) args ;;
  let help := Flag.boolVar (fst parsed) "help" false in
  when help (infoUsage w) ;;
  tgt <- infoTarget w g (snd parsed) ;;
  let con := fst tgt in
  let address := snd tgt in
  emit EvGetInfo ;;
  match GetInfo con with
  | Err e =>
      errPrintf g ("Cannot get info for '" ++ address ++ "': " ++ e ++ nl) ;;
      os_Exit 2
  | Ok info =>
      let bold := Sprint w (NoColor g) Bold in
      Print_stdout (bold "Vendor:" ++ " " ++ vendor info ++ nl) ;;
      Print_stdout (bold "Product:" ++ " " ++ product info ++ nl) ;;
      Print_stdout (bold "Version:" ++ " " ++ version info ++ nl) ;;
      Print_stdout (bold "URL:" ++ " " ++ url info ++ nl) ;;
      Print_stdout (bold "Interfaces:" ++ nl ++ "  "
                    ++ String.concat (nl ++ "  ") (interfaces info) ++ nl ++ nl)
  end.

(** *** [main]; [args] is [os.Args[1:]] *)

Definition main (w : World) (args : list string) : M unit :=
  parsed <- FlagSet_Parse w commandLine (printUsage w None "") args ;;
  let debug := Flag.boolVar (fst parsed) "debug" false in
  let bridge := Flag.stringVar (fst parsed) "bridge" "" in
  let colorMode := Flag.stringVar (fst parsed) "color" "auto" in
  let noColor :=
    if negb (String.eqb colorMode "on")
       && (String.eqb (TERM w) "" || String.eqb colorMode "off")
    then true else NoColor0 w in
  let errorBoldRed := Sprint w noColor Bold (Sprint w noColor FgRed "Error:") in
  let g := mkGlobals bridge errorBoldRed noColor in
  let rest := snd parsed in
  let command := Flag.Arg rest 0 in
  if String.eqb command "info" then varlinkInfo w g (tl rest)
  else if String.eqb command "help" then varlinkHelp w g (tl rest)
  else if String.eqb command "call" then varlinkCall w g (tl rest)
  else printUsage w None "".

(** The i-th positional argument a handler sees: [set.Arg(i)] after
    [set.Parse(args)]; empty when there is none. *)
Definition positional (fs : Flag.FlagSet) (args : list string) (i : nat) : string :=
  match Flag.Parse (Flag.Formal fs) args [] with
  | Flag.Parsed _ rest => Flag.Arg rest i
  | Flag.ParseFailed _ => EmptyString
  end.

(** ** A sample world

    Concrete collaborators for running the program on examples: a service
    behind every address, the library texts in their plain form, and the
    JSON library on the few inputs the examples use. *)

Module Sample.

Definition dq : string := String (Ascii.ascii_of_nat 34) EmptyString.
Definition esc : string := String (Ascii.ascii_of_nat 27) EmptyString.

(** [{"id": 5}] *)
Definition id5 : string := "{" ++ dq ++ "id" ++ dq ++ ": 5}".

Definition Unmarshal_raw (s : string) : Result RawMessage :=
  if String.eqb s "{}" || String.eqb s id5 || String.eqb s "null" then Ok s
  else Err "invalid character 'i' looking for beginning of object key string".

Definition Unmarshal_map (raw : RawMessage) : JMap :=
  if String.eqb raw "{}" then Some []
  else if String.eqb raw id5 then Some [("id", JNumber "5")]
  else None.

Definition scalar (v : JSON) : string :=
  match v with
  | JNull => "null"
  | JBool true => "true"
  | JBool false => "false"
  | JNumber lit => lit
  | JString s => dq ++ s ++ dq
  | JArray _ => "[]"
  | JObject _ => "{}"
  end.

Definition Marshal (noColor : bool) (f : Formatter) (m : JMap) : string :=
  match m with
  | None | Some [] => "{}"
  | Some fields =>
      "{" ++ nl
      ++ String.concat ("," ++ nl)
           (map (fun kv => "  " ++ dq ++ fst kv ++ dq ++ ": " ++ scalar (snd kv)) fields)
      ++ nl ++ "}"
  end.

Definition wrap (a : Attribute) (s : string) : string :=
  esc ++ match a with
         | Bold => "[1m"
         | FgRed => "[31m"
         | FgCyan => "[36m"
         | FgMagenta => "[35m"
         end ++ s ++ esc ++ "[0m".

Definition PrintDefaults (flags : list Flag.Flag) : string :=
  String.concat ""
    (map (fun fl => "  -" ++ Flag.Name fl ++ nl ++ "    " ++ tab ++ Flag.Usage fl ++ nl)
         flags).

Definition errorText (e : Flag.FlagError) : string :=
  match e with
  | Flag.ErrBadSyntax arg => "bad flag syntax: " ++ arg
  | Flag.ErrHelp => "flag: help requested"
  | Flag.ErrNotDefined name => "flag provided but not defined: -" ++ name
  | Flag.ErrInvalidBool value name =>
      "invalid boolean value " ++ dq ++ value ++ dq ++ " for -" ++ name ++ ": parse error"
  | Flag.ErrNeedsArgument name => "flag needs an argument: -" ++ name
  end.

Definition info : ServiceInfo :=
  mkServiceInfo "Varlink" "Example" "1" "https://varlink.org" ["org.varlink.service"].

(** A service whose reply accessor behaves as [r]. *)
Definition service (r : RecvResult) : Connection :=
  mkConnection (fun _ _ _ => Ok r)
               (fun iface => Ok ("interface " ++ iface))
               (Ok info).

Definition world (r : RecvResult) : World :=
  mkWorld "varlink" "" true 2
          (fun _ => Ok (service r)) (fun _ => Ok (service r))
          Unmarshal_raw Unmarshal_map Marshal wrap PrintDefaults errorText.

(** The globals [main] leaves when run without global options. *)
Definition globals : Globals := mkGlobals "" "Error:" true.

(** The structured error [{name: org.Foo.NotFound, parameters: {"id": 5}}]. *)
Definition notFound : VarlinkError :=
  mkVarlinkError "org.Foo.NotFound" (RawPointer (Some id5)).

End Sample.

(** ** Predicates on events *)

(** No call into the transport: the event is a write to a stream. *)
Definition no_transport (e : Event) : Prop := is_transport e = false.

(** Not a request sent over a connection. *)
Definition no_send (e : Event) : Prop := is_send e = false.

(** Not a write to the primary output stream. *)
Definition no_stdout (e : Event) : Prop :=
  match e with EvStdout _ => False | _ => True end.

(** Not the dialing of an address. *)
Definition no_dial_address (e : Event) : Prop :=
  match e with EvNewConnection _ => False | _ => True end.

Definition quiet (e : Event) : Prop := no_send e /\ no_stdout e.

(** ** [main] in two steps *)

(** Lines 293-297: the globals [main] sets from the parsed options. *)
Definition mainGlobals (w : World) (actual : Flag.Actual) : Globals :=
  let bridge := Flag.stringVar actual "bridge" "" in
  let colorMode := Flag.stringVar actual "color" "auto" in
  let noColor :=
    if negb (String.eqb colorMode "on")
       && (String.eqb (TERM w) "" || String.eqb colorMode "off")
    then true else NoColor0 w in
  mkGlobals bridge (Sprint w noColor Bold (Sprint w noColor FgRed "Error:")) noColor.

(** Lines 299-308: the switch on [flag.Arg(0)]. *)
Definition dispatch (w : World) (g : Globals) (rest : list string) : M unit :=
  let command := Flag.Arg rest 0 in
  if String.eqb command "info" then varlinkInfo w g (tl rest)
  else if String.eqb command "help" then varlinkHelp w g (tl rest)
  else if String.eqb command "call" then varlinkCall w g (tl rest)
  else printUsage w None "".

(** What [errPrintf] writes first in a run of [main] on [args]. *)
Definition mainMarker (w : World) (args : list string) : string :=
  match Flag.Parse (Flag.Formal commandLine) args [] with
  | Flag.Parsed actual _ => errorBoldRed (mainGlobals w actual) ++ " "
  | Flag.ParseFailed _ => EmptyString
  end.

(** ** Shapes of a run *)

(** Not a write to the diagnostic stream. *)
Definition no_stderr (e : Event) : Prop :=
  match e with EvStderr _ => False | _ => True end.

(** The calls into the transport a run may make, in order: nothing; or one
    connection attempt, followed by at most one request ([Send] and then
    possibly its reply accessor, or [GetInfo], or
    [GetInterfaceDescription]). *)
Definition protocol (l : list Event) : bool :=
  match l with
  | [] => true
  | d :: after =>
      is_dial d &&
      match after with
      | [] | [EvSend _ _ _] | [EvSend _ _ _; EvRecv]
      | [EvGetInfo] | [EvGetInterfaceDescription _] => true
      | _ => false
      end
  end.

Definition ends_with_stdout (t : list Event) : bool :=
  match rev t with
  | EvStdout _ :: _ => true
  | _ => false
  end.

Definition ends_with_recv (t : list Event) : bool :=
  match rev t with
  | EvRecv :: _ => true
  | _ => false
  end.

(** How the events of a run and its end go together; [marker] is the text
    [errPrintf] writes first. *)
Definition Disciplined (marker : string) (m : M unit) : Prop :=
  protocol (filter is_transport (trace m)) = true /\
  match snd m with
  | Ret _ => Forall no_stderr (trace m) /\ ends_with_stdout (trace m) = true
  | Halt (Exited c) =>
      Forall no_stdout (trace m) /\
      ((c = 1%Z /\ Forall no_transport (trace m)
        /\ exists text, In (EvStderr text) (trace m))
       \/ (c = 2%Z /\ In (EvStderr marker) (trace m)))
  | Halt Blocked =>
      Forall no_stdout (trace m) /\ Forall no_stderr (trace m)
      /\ ends_with_recv (trace m) = true
  | Halt Panicked =>
      Forall no_stdout (trace m) /\ In EvRecv (trace m)
      /\ In (EvStderr marker) (trace m)
  end.

(** A connection attempt agrees with the configured bridge: the bridge
    command when there is one, an address only when there is none. *)
Definition target_ok (g : Globals) (e : Event) : Prop :=
  match e with
  | EvNewBridge command => command = bridge g /\ bridge g <> EmptyString
  | EvNewConnection _ => bridge g = EmptyString
  | _ => True
  end.

(** The run made one call into the transport, the connection attempt
    [dial], wrote [text] to the diagnostic stream and exited 2. *)
Definition ended_by_dial (run : M unit) (dial : Event) (text : string) : Prop :=
  filter is_transport (trace run) = [dial]
  /\ snd run = Halt (Exited 2)
  /\ In (EvStderr text) (trace run).

(** Whenever [run] attempted a connection the world refuses, that attempt
    ended it. *)
Definition DialFailure (w : World) (run : M unit) : Prop :=
  (forall address e,
     NewConnection w address = Err e ->
     In (EvNewConnection address) (trace run) ->
     ended_by_dial run (EvNewConnection address)
       ("Cannot connect to '" ++ address ++ "': " ++ e ++ nl))
  /\ (forall command e,
        NewBridge w command = Err e ->
        In (EvNewBridge command) (trace run) ->
        ended_by_dial run (EvNewBridge command)
          ("Cannot connect with bridge '" ++ command ++ "': " ++ e ++ nl)).

(** * Properties *)

(** ** The model on examples *)

Example splitTarget_last_slash :
  splitTarget "unix:/run/sock/org.Foo.Bar" = Some ("unix:/run/sock", "org.Foo.Bar").
Proof. reflexivity. Qed.

Example splitTarget_trailing_slash :
  splitTarget "unix:/run/sock/" = Some ("unix:/run/sock", "").
Proof. reflexivity. Qed.

Example splitTarget_no_slash : splitTarget "org.Foo.Bar" = None.
Proof. reflexivity. Qed.

Example classify_three_dashes :
  Flag.classify (Flag.Formal callFlags) "---oneway"
  = Flag.Failure (Flag.ErrBadSyntax "---oneway").
Proof. reflexivity. Qed.

Example classify_help :
  Flag.classify (Flag.Formal callFlags) "--help=false"
  = Flag.BoolArg "help" (Some "false").
Proof. reflexivity. Qed.

Example registration_of_the_flags :
  map Flag.registration_panics (map Flag.Name (Flag.Formal callFlags)) = [true; false]
  /\ existsb Flag.registration_panics
       (map Flag.Name (Flag.Formal commandLine ++ Flag.Formal helpFlags
                       ++ Flag.Formal infoFlags)%list) = false.
Proof. split; reflexivity. Qed.

Example classify_dash_h :
  Flag.classify (Flag.Formal commandLine) "-h" = Flag.Failure Flag.ErrHelp.
Proof. reflexivity. Qed.

Example Parse_global_options :
  Flag.Parse (Flag.Formal commandLine)
    ["-bridge"; "ssh host"; "--color=on"; "call"; "--debug"] []
  = Flag.Parsed [("color", Flag.StringValue "on"); ("bridge", Flag.StringValue "ssh host")]
                ["call"; "--debug"].
Proof. reflexivity. Qed.

Example call_success :
  main (Sample.world (RecvReply (Some [("id", JNumber "5")])))
       ["call"; "unix:/run/sock/org.Foo.Bar"; "{}"]
  = ([EvNewConnection "unix:/run/sock";
      EvSend "org.Foo.Bar" (Some "{}") 0; EvRecv;
      EvStdout ("{" ++ nl ++ "  " ++ Sample.dq ++ "id" ++ Sample.dq ++ ": 5"
                ++ nl ++ "}" ++ nl)],
     Ret tt).
Proof. reflexivity. Qed.

Example call_absent_parameters :
  trace (main (Sample.world (RecvReply None)) ["call"; "unix:/run/sock/org.Foo.Bar"])
  = [EvNewConnection "unix:/run/sock"; EvSend "org.Foo.Bar" None 0; EvRecv;
     EvStdout ("{}" ++ nl)].
Proof. reflexivity. Qed.

Example help_through_bridge :
  main (Sample.world RecvNever) ["--bridge"; "ssh host"; "help"; "org.varlink.service"]
  = ([EvNewBridge "ssh host"; EvGetInterfaceDescription "org.varlink.service";
      EvStdout ("interface org.varlink.service" ++ nl)],
     Ret tt).
Proof. reflexivity. Qed.

Example unknown_command_is_usage :
  status (main (Sample.world RecvNever) ["frobnicate"]) = Exited 1.
Proof. reflexivity. Qed.

(** ** Strings and the split at the last [/] *)

Section SplitFacts.

Lemma prefix_slash (c : ascii) (s : string) :
  String.prefix "/" (String c s) = Ascii.eqb c slash.
Proof.
  change (String.prefix "/" (String c s))
    with (if ascii_dec "/" c then String.prefix "" s else false).
  destruct (ascii_dec "/" c) as [E | N].
  - subst c. destruct s; reflexivity.
  - symmetry. apply Ascii.eqb_neq. intro E. apply N. symmetry. exact E.
Qed.

Lemma len_String (c : ascii) (s : string) :
  Strings.len (String c s) = (1 + Strings.len s)%Z.
Proof.
  unfold Strings.len.
  change (String.length (String c s)) with (S (String.length s)). lia.
Qed.

Lemma len_nonneg (s : string) : (0 <= Strings.len s)%Z.
Proof. unfold Strings.len. lia. Qed.

Lemma len_zero (s : string) : Z.eqb (Strings.len s) 0 = String.eqb s "".
Proof.
  destruct s as [| c s].
  - reflexivity.
  - rewrite len_String. pose proof (len_nonneg s).
    change (String.eqb (String c s) "") with false.
    apply Z.eqb_neq. lia.
Qed.

(** The scan returns the offset of the address found by the reference
    split, or the accumulator when there is no [/]. *)
Lemma LastIndex_from_reference (s : string) :
  forall i acc,
    Strings.LastIndex_from s "/" i acc =
    match resolve_reference s with
    | Some (addr, _) => (i + Strings.len addr)%Z
    | None => acc
    end.
Proof.
  induction s as [| c s IH]; intros i acc.
  - reflexivity.
  - cbn [Strings.LastIndex_from resolve_reference].
    rewrite IH, prefix_slash.
    destruct (resolve_reference s) as [[addr ref] |].
    + rewrite len_String. lia.
    + destruct (Ascii.eqb c slash); [unfold Strings.len; simpl; lia | reflexivity].
Qed.

Lemma resolve_reference_shape (s addr ref : string) :
  resolve_reference s = Some (addr, ref) ->
  s = addr ++ "/" ++ ref /\ Strings.contains_byte slash ref = false.
Proof.
  revert addr ref. induction s as [| c s IH]; intros addr ref H.
  - discriminate.
  - simpl in H. destruct (resolve_reference s) as [[a r] |] eqn:E.
    + inversion H; subst. destruct (IH a ref eq_refl) as [-> Hr].
      split; [reflexivity | exact Hr].
    + destruct (Ascii.eqb c slash) eqn:Ec; [| discriminate].
      inversion H; subst. apply Ascii.eqb_eq in Ec. subst c.
      split; [reflexivity |].
      clear H IH. induction ref as [| d r IHr]; [reflexivity |].
      simpl in E. destruct (resolve_reference r) as [[a' r'] |]; [discriminate |].
      destruct (Ascii.eqb d slash) eqn:Ed; [discriminate |].
      simpl. fold slash. rewrite Ed. apply IHr. reflexivity.
Qed.

Lemma resolve_reference_none (s : string) :
  resolve_reference s = None <-> Strings.contains_byte slash s = false.
Proof.
  induction s as [| c s IH]; simpl.
  - tauto.
  - destruct (resolve_reference s) as [[a r] |].
    + split; [discriminate |]. intro H.
      apply orb_false_iff in H. destruct H as [_ H].
      apply IH in H. discriminate.
    + destruct (Ascii.eqb c slash); simpl.
      * split; discriminate.
      * split; intros _; [apply IH |]; reflexivity.
Qed.

Lemma resolve_reference_app (addr ref : string) :
  Strings.contains_byte slash ref = false ->
  resolve_reference (addr ++ "/" ++ ref) = Some (addr, ref).
Proof.
  intro H. induction addr as [| c a IH].
  - simpl. apply resolve_reference_none in H. rewrite H. reflexivity.
  - simpl. simpl in IH. rewrite IH. reflexivity.
Qed.

Lemma slice_to_app (a b : string) :
  Strings.slice_to (a ++ b) (Strings.len a) = a.
Proof.
  unfold Strings.slice_to, Strings.len. rewrite Nat2Z.id.
  induction a as [| c a IH]; simpl.
  - destruct b; reflexivity.
  - rewrite IH. reflexivity.
Qed.

Lemma substring_all (s : string) : String.substring 0 (String.length s) s = s.
Proof. induction s as [| c s IH]; simpl; [| rewrite IH]; reflexivity. Qed.

Lemma slice_from_app (a b : string) :
  Strings.slice_from (a ++ b) (Strings.len a) = b.
Proof.
  unfold Strings.slice_from, Strings.len. rewrite Nat2Z.id.
  induction a as [| c a IH]; simpl.
  - rewrite Nat.sub_0_r. apply substring_all.
  - exact IH.
Qed.

Lemma len_app (a b : string) :
  Strings.len (a ++ b) = (Strings.len a + Strings.len b)%Z.
Proof.
  unfold Strings.len. induction a as [| c a IH]; simpl String.length.
  - simpl. lia.
  - lia.
Qed.

Lemma append_assoc (a b c : string) : (a ++ b) ++ c = a ++ b ++ c.
Proof. induction a as [| x a IH]; simpl; [| rewrite IH]; reflexivity. Qed.

(** The three statements of the handlers compute the reference split. *)
Lemma splitTarget_reference (uri : string) :
  splitTarget uri = resolve_reference uri.
Proof.
  unfold splitTarget, Strings.LastIndex.
  rewrite LastIndex_from_reference.
  destruct (resolve_reference uri) as [[addr ref] |] eqn:E.
  - pose proof (len_nonneg addr) as Hl.
    destruct (Z.eqb_spec (0 + Strings.len addr) (-1)) as [Hc | _]; [lia |].
    apply resolve_reference_shape in E. destruct E as [-> _].
    rewrite Z.add_0_l.
    rewrite slice_to_app.
    replace (Strings.len addr + 1)%Z with (Strings.len (addr ++ "/"))
      by (rewrite len_app; reflexivity).
    rewrite <- append_assoc, slice_from_app. reflexivity.
  - reflexivity.
Qed.

End SplitFacts.

(** ** Computations *)

Section MonadFacts.

Context {A B : Type}.

Lemma bind_ret_l (a : A) (k : A -> M B) : bind (ret a) k = k a.
Proof. unfold bind, ret. destruct (k a). reflexivity. Qed.

Lemma bind_halt (t : list Event) (st : Status) (k : A -> M B) :
  bind (t, Halt st) k = (t, Halt st).
Proof. reflexivity. Qed.

Lemma bind_value (t : list Event) (a : A) (k : A -> M B) :
  bind (t, Ret a) k = ((t ++ trace (k a))%list, snd (k a)).
Proof. unfold bind, trace. destruct (k a). reflexivity. Qed.

(** Every event of [bind m k] is one of [m] or one of a continuation. *)
Lemma Forall_bind (P : Event -> Prop) (m : M A) (k : A -> M B) :
  Forall P (trace m) -> (forall a, Forall P (trace (k a))) ->
  Forall P (trace (bind m k)).
Proof.
  intros Hm Hk. destruct m as [t [a | st]].
  - rewrite bind_value. unfold trace at 1. simpl fst.
    apply Forall_app. split; [exact Hm | apply Hk].
  - exact Hm.
Qed.

End MonadFacts.

Lemma stdout_of_no_stdout (t : list Event) :
  Forall no_stdout t -> stdout_of t = "".
Proof.
  induction 1 as [| e t He _ IH]; [reflexivity |].
  destruct e; simpl; try exact IH. destruct He.
Qed.

(** [printUsage] writes to the diagnostic stream only and exits 1. *)
Lemma printUsage_exits (w : World) (set : option Flag.FlagSet) (arg_help : string) :
  exists t, printUsage w set arg_help = (t, Halt (Exited 1))
            /\ Forall no_transport t /\ Forall no_stdout t.
Proof.
  destruct set as [fs |]; eexists; (split; [reflexivity |]);
    split; repeat constructor.
Qed.

Lemma errPrintf_trace (g : Globals) (text : string) :
  errPrintf g text = ([EvStderr (errorBoldRed g ++ " "); EvStderr text], Ret tt).
Proof. reflexivity. Qed.

(** A failed or successful parse: either the process has ended with
    status 1 having written diagnostics only, or the flags are parsed. *)
Lemma FlagSet_Parse_cases (w : World) (fs : Flag.FlagSet) (usage : M unit)
    (args : list string) :
  (exists t, usage = (t, Halt (Exited 1)) /\ Forall no_transport t /\ Forall no_stdout t) ->
  (exists t, FlagSet_Parse w fs usage args = (t, Halt (Exited 1))
             /\ Forall no_transport t /\ Forall no_stdout t
             /\ exists e, Flag.Parse (Flag.Formal fs) args [] = Flag.ParseFailed e)
  \/ (exists actual rest,
        Flag.Parse (Flag.Formal fs) args [] = Flag.Parsed actual rest
        /\ FlagSet_Parse w fs usage args = ret (actual, rest)).
Proof.
  intros [t [Hu [Ht Ho]]]. unfold FlagSet_Parse.
  destruct (Flag.Parse (Flag.Formal fs) args []) as [actual rest | e].
  - right. exists actual, rest. split; reflexivity.
  - left. rewrite Hu.
    destruct e; eexists; (split; [reflexivity |]);
      (split; [| split; [| eexists; reflexivity]]);
      simpl; repeat constructor; assumption.
Qed.

(** ** Target resolution in the handlers *)

Lemma bridge_len_nonempty (g : Globals) :
  bridge g <> "" -> negb (Z.eqb (Strings.len (bridge g)) 0) = true.
Proof.
  intro H. rewrite len_zero. apply negb_true_iff. apply String.eqb_neq. exact H.
Qed.

Lemma bridge_len_empty (g : Globals) :
  bridge g = "" -> negb (Z.eqb (Strings.len (bridge g)) 0) = false.
Proof. intros ->. reflexivity. Qed.

Lemma callTarget_direct (w : World) (g : Globals) (rest : list string) :
  bridge g = "" -> Flag.Arg rest 0 <> "" ->
  callTarget w g rest =
  match resolve_reference (Flag.Arg rest 0) with
  | None =>
      errPrintf g ("Invalid address '" ++ Flag.Arg rest 0 ++ "'" ++ nl) ;; os_Exit 2
  | Some (address, methodName) =>
      con <- connectAddress w g address ;; ret (con, methodName)
  end.
Proof.
  intros Hb Hu. unfold callTarget.
  rewrite (bridge_len_empty g Hb).
  apply String.eqb_neq in Hu. rewrite Hu.
  unfold when. rewrite bind_ret_l, splitTarget_reference. reflexivity.
Qed.

Lemma helpTarget_direct (w : World) (g : Globals) (rest : list string) :
  bridge g = "" -> Flag.Arg rest 0 <> "" ->
  helpTarget w g rest =
  match resolve_reference (Flag.Arg rest 0) with
  | None =>
      errPrintf g ("Invalid address '" ++ Flag.Arg rest 0 ++ "'" ++ nl) ;; os_Exit 2
  | Some (address, interfaceName) =>
      con <- connectAddress w g address ;; ret (con, interfaceName)
  end.
Proof.
  intros Hb Hu. unfold helpTarget.
  rewrite (bridge_len_empty g Hb).
  apply String.eqb_neq in Hu. rewrite Hu.
  unfold when. cbn [andb]. rewrite bind_ret_l, splitTarget_reference. reflexivity.
Qed.

(** C5. With no bridge configured, the three statements by which
    [varlinkCall] and [varlinkHelp] resolve their positional argument compute
    the reference split: a non-empty argument without [/] ends the run with
    the invalid-address diagnostic and exit code 2 before any connection
    attempt; an argument [addr/ref] whose [ref] holds no [/] dials [addr] and
    uses [ref] as the reference; the split is at the last [/], as on
    [/run/sock/org.Foo.Bar]. *)
Theorem resolver_matches_reference (w : World) (g : Globals) (rest : list string) :
  bridge g = "" -> Flag.Arg rest 0 <> "" ->
  let uri := Flag.Arg rest 0 in
  splitTarget uri = resolve_reference uri
  /\ (Strings.contains_byte slash uri = false ->
      resolve_reference uri = None
      /\ callTarget w g rest =
           ([EvStderr (errorBoldRed g ++ " ");
             EvStderr ("Invalid address '" ++ uri ++ "'" ++ nl)], Halt (Exited 2))
      /\ helpTarget w g rest =
           ([EvStderr (errorBoldRed g ++ " ");
             EvStderr ("Invalid address '" ++ uri ++ "'" ++ nl)], Halt (Exited 2)))
  /\ (forall addr ref,
        uri = addr ++ "/" ++ ref -> Strings.contains_byte slash ref = false ->
        resolve_reference uri = Some (addr, ref)
        /\ callTarget w g rest = (con <- connectAddress w g addr ;; ret (con, ref))
        /\ helpTarget w g rest = (con <- connectAddress w g addr ;; ret (con, ref)))
  /\ splitTarget "/run/sock/org.Foo.Bar" = Some ("/run/sock", "org.Foo.Bar").
Proof.
  intros Hb Hu uri. split; [apply splitTarget_reference |].
  split; [| split; [| reflexivity]].
  - intro Hn. apply resolve_reference_none in Hn.
    rewrite (callTarget_direct w g rest Hb Hu), (helpTarget_direct w g rest Hb Hu).
    fold uri. rewrite Hn. repeat split; reflexivity.
  - intros addr ref Huri Hr.
    rewrite (callTarget_direct w g rest Hb Hu), (helpTarget_direct w g rest Hb Hu).
    fold uri. rewrite Huri, (resolve_reference_app addr ref Hr).
    repeat split; reflexivity.
Qed.

Lemma resolver_matches_reference_witness :
  let g := Sample.globals in
  let rest := ["/run/sock/org.Foo.Bar"; "{}"] in
  splitTarget (Flag.Arg rest 0) = resolve_reference (Flag.Arg rest 0)
  /\ callTarget (Sample.world RecvNever) g rest
     = (con <- connectAddress (Sample.world RecvNever) g "/run/sock" ;;
        ret (con, "org.Foo.Bar")).
Proof.
  intros g rest.
  destruct (resolver_matches_reference (Sample.world RecvNever) g rest)
    as [H1 [_ [H3 _]]].
  - reflexivity.
  - discriminate.
  - split; [exact H1 |].
    apply (H3 "/run/sock" "org.Foo.Bar"); reflexivity.
Defined.

(** C6. With a non-empty bridge command the handlers do no address
    splitting: [varlinkCall] and [varlinkHelp] connect through the bridge and
    take the raw positional argument as the method or interface name,
    [varlinkInfo] takes ["bridge:" ++ bridge] as the display address, and no
    address is ever dialed. *)
Theorem bridge_skips_address_split (w : World) (g : Globals) (rest : list string) :
  bridge g <> "" ->
  callTarget w g rest = (con <- connectBridge w g ;; ret (con, Flag.Arg rest 0))
  /\ helpTarget w g rest = (con <- connectBridge w g ;; ret (con, Flag.Arg rest 0))
  /\ infoTarget w g rest = (con <- connectBridge w g ;; ret (con, "bridge:" ++ bridge g))
  /\ Forall no_dial_address (trace (callTarget w g rest))
  /\ Forall no_dial_address (trace (helpTarget w g rest))
  /\ Forall no_dial_address (trace (infoTarget w g rest)).
Proof.
  intro Hb. pose proof (bridge_len_nonempty g Hb) as Hl.
  unfold callTarget, helpTarget, infoTarget. rewrite Hl.
  repeat split;
    unfold connectBridge; destruct (NewBridge w (bridge g));
    simpl; repeat constructor.
Qed.

Lemma bridge_skips_address_split_witness :
  let g := mkGlobals "ssh host varlink bridge" "Error:" true in
  callTarget (Sample.world RecvNever) g ["a/b/org.Foo.Bar"]
  = (con <- connectBridge (Sample.world RecvNever) g ;; ret (con, "a/b/org.Foo.Bar")).
Proof.
  intro g.
  apply (bridge_skips_address_split (Sample.world RecvNever) g ["a/b/org.Foo.Bar"]).
  discriminate.
Defined.

(** ** The call flow *)

Ltac quiet_events :=
  repeat (apply Forall_cons || apply Forall_nil);
  repeat split; try reflexivity; try exact I.

Lemma connectBridge_quiet (w : World) (g : Globals) :
  Forall quiet (trace (connectBridge w g)).
Proof.
  unfold connectBridge. destruct (NewBridge w (bridge g)); simpl; quiet_events.
Qed.

Lemma connectAddress_quiet (w : World) (g : Globals) (address : string) :
  Forall quiet (trace (connectAddress w g address)).
Proof.
  unfold connectAddress. destruct (NewConnection w address); simpl; quiet_events.
Qed.

Lemma callTarget_quiet (w : World) (g : Globals) (rest : list string) :
  Forall quiet (trace (callTarget w g rest)).
Proof.
  unfold callTarget.
  destruct (negb (Z.eqb (Strings.len (bridge g)) 0)).
  - apply Forall_bind; [apply connectBridge_quiet | intro; constructor].
  - apply Forall_bind.
    + unfold when. destruct (String.eqb (Flag.Arg rest 0) "").
      * destruct (printUsage_exits w (Some callFlags)
                    "<[ADDRESS/]INTERFACE.METHOD> [ARGUMENTS]") as [t [E [Ht Ho]]].
        unfold callUsage. rewrite E. simpl.
        clear E. induction t as [| e t IH]; constructor.
        -- inversion Ht; inversion Ho; subst. split; [| assumption].
           unfold no_send. destruct e; try reflexivity; discriminate.
        -- inversion Ht; inversion Ho; subst. apply IH; assumption.
      * constructor.
    + intros _. destruct (splitTarget (Flag.Arg rest 0)) as [[address methodName] |].
      * apply Forall_bind; [apply connectAddress_quiet | intro; constructor].
      * simpl. quiet_events.
Qed.

(** The three ways [callParameters] ends. *)
Lemma callParameters_cases (w : World) (g : Globals) (parameters : string) :
  (parameters = "" /\ callParameters w g parameters = ret None)
  \/ (parameters <> "" /\ exists raw,
        json_Unmarshal_raw w parameters = Ok raw
        /\ callParameters w g parameters = ret (Some raw))
  \/ (parameters <> "" /\ exists e,
        json_Unmarshal_raw w parameters = Err e
        /\ callParameters w g parameters =
             ([EvStderr (errorBoldRed g ++ " ");
               EvStderr ("Cannot parse parameters: " ++ e ++ nl)], Halt (Exited 2))).
Proof.
  unfold callParameters.
  destruct (String.eqb_spec parameters "") as [E | N].
  - left. split; [exact E | reflexivity].
  - right. destruct (json_Unmarshal_raw w parameters) as [raw | e].
    + left. split; [exact N |]. exists raw. split; reflexivity.
    + right. split; [exact N |]. exists e. split; reflexivity.
Qed.

Lemma callParameters_quiet (w : World) (g : Globals) (parameters : string) :
  Forall quiet (trace (callParameters w g parameters)).
Proof.
  destruct (callParameters_cases w g parameters)
    as [[_ E] | [[_ [raw [_ E]]] | [_ [e [_ E]]]]]; rewrite E; simpl; quiet_events.
Qed.

Lemma callRender_no_send (w : World) (g : Globals) (methodName : string)
    (r : RecvResult) :
  Forall no_send (trace (callRender w g methodName r)).
Proof.
  destruct r as [retval | [name [[raw |] |]] | e |]; simpl; repeat constructor.
Qed.

Lemma callInvoke_trace (w : World) (g : Globals) (oneway : bool)
    (con : Connection) (methodName : string) (params : option RawMessage) :
  exists tail,
    trace (callInvoke w g oneway con methodName params)
    = EvSend methodName params (callFlagBits w oneway) :: tail
    /\ Forall no_send tail.
Proof.
  unfold callInvoke.
  destruct (Send con methodName params (callFlagBits w oneway)) as [recv | e].
  - exists (EvRecv :: trace (callRender w g methodName recv)). split.
    + unfold emit, bind, trace.
      destruct (callRender w g methodName recv). reflexivity.
    + constructor; [reflexivity | apply callRender_no_send].
  - eexists. split; [reflexivity | repeat constructor].
Qed.

Lemma varlinkCall_body_unfold (w : World) (g : Globals) (oneway : bool)
    (rest : list string) :
  varlinkCall_body w g oneway rest =
  match callTarget w g rest with
  | (t1, Halt st) => (t1, Halt st)
  | (t1, Ret tgt) =>
      match callParameters w g (Flag.Arg rest 1) with
      | (t2, Halt st) => ((t1 ++ t2)%list, Halt st)
      | (t2, Ret params) =>
          ((t1 ++ t2 ++ trace (callInvoke w g oneway (fst tgt) (snd tgt) params))%list,
           snd (callInvoke w g oneway (fst tgt) (snd tgt) params))
      end
  end.
Proof.
  unfold varlinkCall_body.
  destruct (callTarget w g rest) as [t1 [tgt | st]]; [| reflexivity].
  rewrite bind_value.
  destruct (callParameters w g (Flag.Arg rest 1)) as [t2 [params | st]].
  - rewrite bind_value. reflexivity.
  - reflexivity.
Qed.

Lemma quiet_not_send (t : list Event) (m : string) (p : option RawMessage) (f : Z) :
  Forall quiet t -> ~ In (EvSend m p f) t.
Proof.
  intros Hq Hin. rewrite Forall_forall in Hq.
  destruct (Hq _ Hin) as [Hs _]. discriminate Hs.
Qed.

(** Whatever request a run of the call flow sends, it is the one built from
    the resolved method name, the encoded parameters and the flag bits. *)
Lemma varlinkCall_body_sends (w : World) (g : Globals) (oneway : bool)
    (rest : list string) (m : string) (p : option RawMessage) (f : Z) :
  In (EvSend m p f) (trace (varlinkCall_body w g oneway rest)) ->
  exists t1 con t2,
    callTarget w g rest = (t1, Ret (con, m))
    /\ callParameters w g (Flag.Arg rest 1) = (t2, Ret p)
    /\ f = callFlagBits w oneway.
Proof.
  rewrite varlinkCall_body_unfold.
  pose proof (callTarget_quiet w g rest) as Q1.
  pose proof (callParameters_quiet w g (Flag.Arg rest 1)) as Q2.
  destruct (callTarget w g rest) as [t1 [[con m'] | st]]; unfold trace in *; simpl in *.
  - destruct (callParameters w g (Flag.Arg rest 1)) as [t2 [params | st]];
      simpl in *; intro Hin.
    + destruct (callInvoke_trace w g oneway con m' params) as [tail [E Hs]].
      unfold trace in E. rewrite E in Hin.
      apply in_app_or in Hin. destruct Hin as [Hin | Hin];
        [exfalso; exact (quiet_not_send _ _ _ _ Q1 Hin) |].
      apply in_app_or in Hin. destruct Hin as [Hin | Hin];
        [exfalso; exact (quiet_not_send _ _ _ _ Q2 Hin) |].
      destruct Hin as [Hin | Hin].
      * inversion Hin; subst. exists t1, con, t2. repeat split.
      * exfalso. rewrite Forall_forall in Hs. discriminate (Hs _ Hin).
    + exfalso. apply in_app_or in Hin. destruct Hin as [Hin | Hin];
        [exact (quiet_not_send _ _ _ _ Q1 Hin) | exact (quiet_not_send _ _ _ _ Q2 Hin)].
  - intro Hin. exfalso. exact (quiet_not_send _ _ _ _ Q1 Hin).
Qed.

(** C7. An empty parameter string is encoded as absent parameters (the nil
    [params]); no other parameter string is, the literal [{}] included: it
    either fails to parse or yields a non-nil raw message.  Hence in every
    run of the call flow a request is sent with absent parameters exactly
    when the parameter string is empty. *)
Theorem empty_parameters_are_absent (w : World) (g : Globals) (oneway : bool)
    (rest : list string) :
  callParameters w g "" = ret None
  /\ callParameters w g "{}" <> callParameters w g ""
  /\ (forall s t, callParameters w g s = (t, Ret None) -> s = "")
  /\ (forall m p f,
        In (EvSend m p f) (trace (varlinkCall_body w g oneway rest)) ->
        (p = None <-> Flag.Arg rest 1 = "")).
Proof.
  assert (Hnone : forall s t, callParameters w g s = (t, Ret None) -> s = "").
  { intros s t H.
    destruct (callParameters_cases w g s)
      as [[E _] | [[_ [raw [_ E]]] | [_ [e [_ E]]]]];
      [exact E | rewrite E in H; discriminate H ..]. }
  split; [reflexivity |]. split; [| split; [exact Hnone |]].
  - intro H. change (callParameters w g "") with (@ret (option RawMessage) None) in H.
    apply Hnone in H. discriminate H.
  - intros m p f Hin.
    destruct (varlinkCall_body_sends _ _ _ _ _ _ _ Hin) as [t1 [con [t2 [_ [Hp _]]]]].
    split.
    + intros ->. exact (Hnone _ _ Hp).
    + intro E. rewrite E in Hp. inversion Hp. reflexivity.
Qed.

(** [varlinkCall] once its flags have parsed. *)
Lemma varlinkCall_parsed (w : World) (g : Globals) (args : list string)
    (actual : Flag.Actual) (rest : list string) :
  Flag.Parse (Flag.Formal callFlags) args [] = Flag.Parsed actual rest ->
  varlinkCall w g args =
  if Flag.boolVar actual "help" false then callUsage w
  else varlinkCall_body w g (Flag.boolVar actual "-oneway" false) rest.
Proof.
  intro H. unfold varlinkCall, FlagSet_Parse. rewrite H, bind_ret_l.
  cbn [fst snd]. destruct (Flag.boolVar actual "help" false); unfold when.
  - destruct (printUsage_exits w (Some callFlags)
                "<[ADDRESS/]INTERFACE.METHOD> [ARGUMENTS]") as [t [E _]].
    unfold callUsage. rewrite E. reflexivity.
  - rewrite bind_ret_l. reflexivity.
Qed.

Lemma callTarget_halts (w : World) (g : Globals) (rest : list string)
    (t : list Event) (st : Status) :
  callTarget w g rest = (t, Halt st) -> st = Exited 1 \/ st = Exited 2.
Proof.
  unfold callTarget, connectBridge, connectAddress, when.
  destruct (negb (Z.eqb (Strings.len (bridge g)) 0)).
  - destruct (NewBridge w (bridge g)); simpl; intro H; inversion H; auto.
  - destruct (String.eqb (Flag.Arg rest 0) "").
    + simpl. intro H. inversion H. auto.
    + rewrite bind_ret_l.
      destruct (splitTarget (Flag.Arg rest 0)) as [[address methodName] |].
      * destruct (NewConnection w address); simpl; intro H; inversion H; auto.
      * simpl. intro H. inversion H. auto.
Qed.

Lemma quiet_no_send (t : list Event) : Forall quiet t -> Forall no_send t.
Proof. apply Forall_impl. intros e [H _]. exact H. Qed.

(** C2, as the code has it. In the call flow (lines 66-155), a non-empty
    parameter string the JSON library rejects is never sent: no request goes
    over any connection and the flow ends with exit code 1 or 2.  The
    connection is established first; once it is, the flow ends with the
    parse diagnostic and exit code 2. *)
Theorem malformed_parameters_never_sent (w : World) (g : Globals)
    (oneway : bool) (rest : list string) (e : error) :
  Flag.Arg rest 1 <> "" ->
  json_Unmarshal_raw w (Flag.Arg rest 1) = Err e ->
  Forall no_send (trace (varlinkCall_body w g oneway rest))
  /\ (status (varlinkCall_body w g oneway rest) = Exited 1
      \/ status (varlinkCall_body w g oneway rest) = Exited 2)
  /\ (forall t1 tgt,
        callTarget w g rest = (t1, Ret tgt) ->
        varlinkCall_body w g oneway rest =
        ((t1 ++ [EvStderr (errorBoldRed g ++ " ");
                 EvStderr ("Cannot parse parameters: " ++ e ++ nl)])%list,
         Halt (Exited 2))).
Proof.
  intros Hne Herr.
  assert (Hp : callParameters w g (Flag.Arg rest 1) =
               ([EvStderr (errorBoldRed g ++ " ");
                 EvStderr ("Cannot parse parameters: " ++ e ++ nl)], Halt (Exited 2))).
  { destruct (callParameters_cases w g (Flag.Arg rest 1))
      as [[E _] | [[_ [raw [E _]]] | [_ [e' [E1 E2]]]]].
    - contradiction.
    - rewrite E in Herr. discriminate Herr.
    - rewrite E1 in Herr. inversion Herr. subst e'. exact E2. }
  rewrite varlinkCall_body_unfold, Hp.
  pose proof (callTarget_quiet w g rest) as Q1.
  destruct (callTarget w g rest) as [t1 [tgt | st]] eqn:Et.
  - split; [| split].
    + unfold trace in *. simpl in *. apply Forall_app. split.
      * apply quiet_no_send. exact Q1.
      * repeat constructor.
    + right. reflexivity.
    + intros t1' tgt' H. inversion H. subst. reflexivity.
  - split; [| split].
    + apply quiet_no_send. exact Q1.
    + unfold status. simpl. exact (callTarget_halts w g rest t1 st Et).
    + intros t1' tgt' H. discriminate H.
Qed.

Lemma malformed_parameters_never_sent_witness :
  let w := Sample.world (RecvReply (Some [])) in
  let rest := ["unix:/run/sock/org.Foo.Bar"; "{invalid"] in
  Forall no_send (trace (varlinkCall_body w Sample.globals false rest))
  /\ (status (varlinkCall_body w Sample.globals false rest) = Exited 1
      \/ status (varlinkCall_body w Sample.globals false rest) = Exited 2).
Proof.
  intros w rest.
  destruct (malformed_parameters_never_sent w Sample.globals false rest
              "invalid character 'i' looking for beginning of object key string")
    as [H1 [H2 _]].
  - discriminate.
  - reflexivity.
  - split; [exact H1 | exact H2].
Defined.

(** C2, as stated, fails: the call flow dials the address (lines 72-100)
    before it looks at the parameter string (lines 104-112), so a malformed
    parameter string does not prevent the dial. *)
Lemma malformed_parameters_dial_first :
  let w := Sample.world (RecvReply (Some [])) in
  let rest := ["unix:/run/sock/org.Foo.Bar"; "{invalid"] in
  json_Unmarshal_raw w "{invalid"
  = Err "invalid character 'i' looking for beginning of object key string"
  /\ varlinkCall_body w Sample.globals false rest
     = ([EvNewConnection "unix:/run/sock";
         EvStderr "Error: ";
         EvStderr ("Cannot parse parameters: "
                   ++ "invalid character 'i' looking for beginning of object key string"
                   ++ nl)],
        Halt (Exited 2))
  /\ existsb is_dial (trace (varlinkCall_body w Sample.globals false rest)) = true.
Proof. intros w rest. repeat split. Qed.

(** ** The info flow without a target *)

(** C3, as the code has it. [info] with no positional address and no bridge
    configured ends through [printUsage], hence with exit code 1, having
    written to the diagnostic stream only and attempted no connection. *)
Theorem info_without_target_is_usage_error (w : World) (g : Globals)
    (args : list string) :
  bridge g = "" ->
  positional infoFlags args 0 = "" ->
  status (varlinkInfo w g args) = Exited 1
  /\ Forall no_transport (trace (varlinkInfo w g args))
  /\ Forall no_stdout (trace (varlinkInfo w g args)).
Proof.
  intros Hb Hpos. unfold varlinkInfo.
  destruct (FlagSet_Parse_cases w infoFlags (infoUsage w) args
              (printUsage_exits w (Some infoFlags) "[ADDRESS]"))
    as [[t [E [Ht [Ho _]]]] | [actual [rest [Hp E]]]]; rewrite E.
  - repeat split; assumption.
  - rewrite bind_ret_l. cbn [fst snd].
    unfold positional in Hpos. rewrite Hp in Hpos.
    destruct (Flag.boolVar actual "help" false); unfold when.
    + destruct (printUsage_exits w (Some infoFlags) "[ADDRESS]") as [t [E' [Ht Ho]]].
      unfold infoUsage. rewrite E', !bind_halt. repeat split; assumption.
    + rewrite bind_ret_l. unfold infoTarget.
      rewrite (bridge_len_empty g Hb), Hpos, Hb. simpl.
      repeat split; repeat constructor.
Qed.

Lemma info_without_target_is_usage_error_witness :
  bridge Sample.globals = ""
  /\ positional infoFlags [] 0 = ""
  /\ status (varlinkInfo (Sample.world RecvNever) Sample.globals []) = Exited 1.
Proof.
  split; [reflexivity |]. split; [reflexivity |].
  apply (info_without_target_is_usage_error (Sample.world RecvNever) Sample.globals []);
    reflexivity.
Defined.

(** C3, as stated, fails: the exit code of [info] without a target is 1,
    not 2. *)
Lemma info_without_target_exit_code :
  let run := main (Sample.world RecvNever) ["info"] in
  status run = Exited 1
  /\ status run <> Exited 2
  /\ forallb (fun e => negb (is_transport e)) (trace run) = true.
Proof. intro run. split; [| split]; [reflexivity | discriminate | reflexivity]. Qed.

(** ** Rendering of replies and of structured errors *)

(** What [callRender] does with a structured error whose parameters are
    carried as a [*json.RawMessage]. *)
Lemma callRender_varlink_error (w : World) (g : Globals) (methodName : string)
    (e : VarlinkError) (payload : option RawMessage) :
  EParameters e = RawPointer payload ->
  callRender w g methodName (RecvVarlinkError e) =
  ((EvStderr (errorBoldRed g ++ " ")
    :: EvStderr ("Call failed with error: "
                 ++ Sprint w (NoColor g) FgRed (EName e) ++ nl)
    :: match payload with
       | None => []
       | Some raw =>
           [EvStderr (colorjson_Marshal w (NoColor g) callFormatter
                        (json_Unmarshal_map w raw) ++ nl)]
       end)%list,
   Halt (Exited 2)).
Proof.
  intro H. unfold callRender. rewrite H. destruct payload; reflexivity.
Qed.

Lemma callInvoke_received (w : World) (g : Globals) (oneway : bool)
    (con : Connection) (methodName : string) (params : option RawMessage)
    (r : RecvResult) :
  Send con methodName params (callFlagBits w oneway) = Ok r ->
  callInvoke w g oneway con methodName params =
  ((EvSend methodName params (callFlagBits w oneway) :: EvRecv
    :: trace (callRender w g methodName r))%list,
   snd (callRender w g methodName r)).
Proof.
  intro H. unfold callInvoke. rewrite H.
  unfold emit, bind, trace. destruct (callRender w g methodName r). reflexivity.
Qed.

(** C8. When the reply accessor reports a structured named error, the run
    writes the error name, in red, and then the parameters, rendered by the
    formatter that renders a successful reply, to the diagnostic stream;
    nothing reaches the primary output stream and the exit code is 2.  A
    successful reply is written to the primary output stream. *)
Theorem remote_error_on_diagnostic_stream (w : World) (g : Globals)
    (oneway : bool) (rest : list string) (t1 t2 : list Event) (con : Connection)
    (m : string) (p : option RawMessage) (e : VarlinkError)
    (payload : option RawMessage) :
  callTarget w g rest = (t1, Ret (con, m)) ->
  callParameters w g (Flag.Arg rest 1) = (t2, Ret p) ->
  Send con m p (callFlagBits w oneway) = Ok (RecvVarlinkError e) ->
  EParameters e = RawPointer payload ->
  varlinkCall_body w g oneway rest =
    ((t1 ++ t2
      ++ [EvSend m p (callFlagBits w oneway); EvRecv;
          EvStderr (errorBoldRed g ++ " ");
          EvStderr ("Call failed with error: "
                    ++ Sprint w (NoColor g) FgRed (EName e) ++ nl)]
      ++ match payload with
         | None => []
         | Some raw =>
             [EvStderr (colorjson_Marshal w (NoColor g) callFormatter
                          (json_Unmarshal_map w raw) ++ nl)]
         end)%list,
     Halt (Exited 2))
  /\ stdout_of (trace (varlinkCall_body w g oneway rest)) = ""
  /\ (forall retval,
        callRender w g m (RecvReply retval) =
        ([EvStdout (colorjson_Marshal w (NoColor g) callFormatter retval ++ nl)],
         Ret tt)).
Proof.
  intros Ht Hp Hs He.
  assert (E : varlinkCall_body w g oneway rest =
    ((t1 ++ t2
      ++ [EvSend m p (callFlagBits w oneway); EvRecv;
          EvStderr (errorBoldRed g ++ " ");
          EvStderr ("Call failed with error: "
                    ++ Sprint w (NoColor g) FgRed (EName e) ++ nl)]
      ++ match payload with
         | None => []
         | Some raw =>
             [EvStderr (colorjson_Marshal w (NoColor g) callFormatter
                          (json_Unmarshal_map w raw) ++ nl)]
         end)%list,
     Halt (Exited 2))).
  { rewrite varlinkCall_body_unfold, Ht, Hp. cbn [fst snd].
    rewrite (callInvoke_received w g oneway con m p _ Hs).
    rewrite (callRender_varlink_error w g m e payload He).
    reflexivity. }
  split; [exact E |]. split; [| reflexivity].
  rewrite E. unfold trace. cbn [fst].
  pose proof (callTarget_quiet w g rest) as Q1.
  pose proof (callParameters_quiet w g (Flag.Arg rest 1)) as Q2.
  rewrite Ht in Q1. rewrite Hp in Q2. unfold trace in Q1, Q2. cbn [fst] in Q1, Q2.
  apply stdout_of_no_stdout.
  apply Forall_app. split; [eapply Forall_impl; [| exact Q1]; intros ? [_ H]; exact H |].
  apply Forall_app. split; [eapply Forall_impl; [| exact Q2]; intros ? [_ H]; exact H |].
  destruct payload; repeat constructor.
Qed.

Lemma remote_error_on_diagnostic_stream_witness :
  let w := Sample.world (RecvVarlinkError Sample.notFound) in
  varlinkCall_body w Sample.globals false ["unix:/run/sock/org.Foo.Bar"; "{}"] =
    ([EvNewConnection "unix:/run/sock";
      EvSend "org.Foo.Bar" (Some "{}") 0; EvRecv;
      EvStderr "Error: ";
      EvStderr ("Call failed with error: org.Foo.NotFound" ++ nl);
      EvStderr ("{" ++ nl ++ "  " ++ Sample.dq ++ "id" ++ Sample.dq ++ ": 5"
                ++ nl ++ "}" ++ nl)],
     Halt (Exited 2)).
Proof.
  intro w.
  apply (remote_error_on_diagnostic_stream w Sample.globals false
           ["unix:/run/sock/org.Foo.Bar"; "{}"]
           [EvNewConnection "unix:/run/sock"] []
           (Sample.service (RecvVarlinkError Sample.notFound))
           "org.Foo.Bar" (Some "{}") Sample.notFound (Some Sample.id5));
    reflexivity.
Defined.

(** C9. A structured error whose parameters are absent (the nil
    [*json.RawMessage]) or malformed (decoding leaves the map nil) does not
    stop the report: the error name is written to the diagnostic stream and
    the run exits 2.  Absent parameters print nothing more; malformed ones
    print the rendering of the nil map, that is, of no parameters. *)
Theorem error_parameters_tolerated (w : World) (g : Globals) (methodName : string)
    (e : VarlinkError) (payload : option RawMessage) :
  EParameters e = RawPointer payload ->
  payload = None
  \/ (exists raw, payload = Some raw /\ json_Unmarshal_map w raw = None) ->
  let reported :=
    [EvStderr (errorBoldRed g ++ " ");
     EvStderr ("Call failed with error: "
               ++ Sprint w (NoColor g) FgRed (EName e) ++ nl)] in
  callRender w g methodName (RecvVarlinkError e) =
  ((reported
    ++ match payload with
       | None => []
       | Some _ =>
           [EvStderr (colorjson_Marshal w (NoColor g) callFormatter None ++ nl)]
       end)%list,
   Halt (Exited 2)).
Proof.
  intros He Hp reported.
  rewrite (callRender_varlink_error w g methodName e payload He).
  destruct Hp as [-> | [raw [-> Hraw]]]; [reflexivity |].
  rewrite Hraw. reflexivity.
Qed.

Lemma error_parameters_tolerated_witness :
  let w := Sample.world RecvNever in
  callRender w Sample.globals "org.Foo.Bar"
    (RecvVarlinkError (mkVarlinkError "org.Foo.NotFound" (RawPointer (Some "{invalid"))))
  = ([EvStderr "Error: ";
      EvStderr ("Call failed with error: org.Foo.NotFound" ++ nl);
      EvStderr ("{}" ++ nl)],
     Halt (Exited 2)).
Proof.
  intro w.
  apply (error_parameters_tolerated w Sample.globals "org.Foo.Bar"
           (mkVarlinkError "org.Foo.NotFound" (RawPointer (Some "{invalid")))
           (Some "{invalid")).
  - reflexivity.
  - right. exists "{invalid". split; reflexivity.
Defined.

(** ** The [-oneway] flag *)

(** A flag name found by [parseOne] never starts with [-]. *)
Lemma classify_name (formal : list Flag.Flag) (s : string) :
  match Flag.classify formal s with
  | Flag.BoolArg name _ | Flag.StringArg name _ =>
      exists c t, name = String c t /\ Ascii.eqb c "-"%char = false
  | _ => True
  end.
Proof.
  unfold Flag.classify. destruct s as [| c0 [| c1 t]]; try exact I.
  destruct (negb (Ascii.eqb c0 "-")); try exact I.
  destruct (Ascii.eqb c1 "-" && String.eqb t ""); try exact I.
  destruct (if Ascii.eqb c1 "-" then t else String c1 t) as [| n0 nt]; try exact I.
  destruct (Ascii.eqb n0 "-") eqn:E0; try exact I.
  destruct (Ascii.eqb n0 "="); try exact I. cbn [orb].
  destruct (Flag.cut_equals nt) as [nt' value].
  destruct (Flag.lookup formal (String n0 nt')) as [fl |].
  - destruct (Flag.Kind fl); exists n0, nt'; (split; [reflexivity | exact E0]).
  - destruct (String.eqb (String n0 nt') "help" || String.eqb (String n0 nt') "h");
      exact I.
Qed.

Lemma boolVar_other_name (actual : Flag.Actual) (c : ascii) (t : string)
    (v : Flag.FlagValue) :
  Ascii.eqb c "-"%char = false ->
  Flag.boolVar ((String c t, v) :: actual) "-oneway" false
  = Flag.boolVar actual "-oneway" false.
Proof.
  intro H. cbn [Flag.boolVar].
  change (String.eqb (String c t) "-oneway")
    with (if Ascii.eqb c "-"%char then String.eqb t "oneway" else false).
  rewrite H. reflexivity.
Qed.

(** Parsing never binds the variable declared under the name [-oneway]. *)
Lemma Parse_never_sets_oneway (formal : list Flag.Flag) (n : nat) :
  forall args actual,
    (List.length args <= n)%nat ->
    Flag.boolVar actual "-oneway" false = false ->
    match Flag.Parse formal args actual with
    | Flag.Parsed actual' _ => Flag.boolVar actual' "-oneway" false = false
    | Flag.ParseFailed _ => True
    end.
Proof.
  induction n as [| n IH]; intros args actual Hlen Hact.
  - destruct args; [exact Hact | simpl in Hlen; lia].
  - destruct args as [| s rest]; [exact Hact |].
    simpl in Hlen. cbn [Flag.Parse].
    pose proof (classify_name formal s) as Hname.
    destruct (Flag.classify formal s) as [| | e | name value | name value];
      try exact Hact; try exact I;
      destruct Hname as [c [t [-> Hc]]].
    + destruct value as [v |].
      * destruct (Flag.ParseBool v) as [b |]; [| exact I].
        apply IH; [lia | rewrite boolVar_other_name; assumption].
      * apply IH; [lia | rewrite boolVar_other_name; assumption].
    + destruct value as [v |].
      * apply IH; [lia | rewrite boolVar_other_name; assumption].
      * destruct rest as [| v rest']; [exact I |].
        simpl in Hlen.
        apply IH; [lia | rewrite boolVar_other_name; assumption].
Qed.

(** C4 fails on the code. The flag is declared under the name [-oneway],
    which no command-line argument can spell: [--oneway] is looked up as
    [oneway], is not defined, and ends the run through [printUsage] with
    exit code 1 before any connection; and whatever the arguments, the
    variable [oneway] is false after parsing. *)
Theorem oneway_option_not_accepted (w : World) (g : Globals)
    (rest args : list string) :
  Flag.classify (Flag.Formal callFlags) "--oneway"
    = Flag.Failure (Flag.ErrNotDefined "oneway")
  /\ varlinkCall w g ("--oneway" :: rest)
     = (Fprint_stderr (flag_errorText w (Flag.ErrNotDefined "oneway") ++ nl) ;;
        callUsage w)
  /\ status (varlinkCall w g ("--oneway" :: rest)) = Exited 1
  /\ Forall no_transport (trace (varlinkCall w g ("--oneway" :: rest)))
  /\ match Flag.Parse (Flag.Formal callFlags) args [] with
     | Flag.Parsed actual _ => Flag.boolVar actual "-oneway" false = false
     | Flag.ParseFailed _ => True
     end.
Proof.
  split; [reflexivity |]. split; [reflexivity |]. split; [reflexivity |].
  split; [repeat constructor |].
  apply (Parse_never_sets_oneway _ (List.length args)); [lia | reflexivity].
Qed.

(** C1 fails on the code. On the command line, [call --oneway] ends through
    [printUsage] with exit code 1 and sends nothing.  And where the variable
    [oneway] is true, the flow only adds the oneway bit to the request: the
    reply accessor is still called after the send and its result decides how
    the run ends, so a remote that never responds blocks the run. *)
Theorem oneway_reply_still_awaited (w : World) (g : Globals) (rest : list string)
    (t1 t2 : list Event) (con : Connection) (m : string)
    (p : option RawMessage) (r : RecvResult) :
  callTarget w g rest = (t1, Ret (con, m)) ->
  callParameters w g (Flag.Arg rest 1) = (t2, Ret p) ->
  Send con m p (callFlagBits w true) = Ok r ->
  status (main w ("call" :: "--oneway" :: rest)) = Exited 1
  /\ Forall no_transport (trace (main w ("call" :: "--oneway" :: rest)))
  /\ callFlagBits w true = Z.lor 0 (varlink_Oneway w)
  /\ varlinkCall_body w g true rest =
       ((t1 ++ t2 ++ EvSend m p (callFlagBits w true) :: EvRecv
            :: trace (callRender w g m r))%list,
        snd (callRender w g m r))
  /\ (r = RecvNever -> status (varlinkCall_body w g true rest) = Blocked).
Proof.
  intros Ht Hp Hs.
  split; [reflexivity |]. split; [repeat constructor |]. split; [reflexivity |].
  assert (E : varlinkCall_body w g true rest =
       ((t1 ++ t2 ++ EvSend m p (callFlagBits w true) :: EvRecv
            :: trace (callRender w g m r))%list,
        snd (callRender w g m r))).
  { rewrite varlinkCall_body_unfold, Ht, Hp. cbn [fst snd].
    rewrite (callInvoke_received w g true con m p r Hs). reflexivity. }
  split; [exact E |].
  intros ->. rewrite E. reflexivity.
Qed.

Lemma oneway_reply_still_awaited_witness :
  let w := Sample.world RecvNever in
  let rest := ["unix:/run/sock/org.Foo.Bar"] in
  status (main w ("call" :: "--oneway" :: rest)) = Exited 1
  /\ varlinkCall_body w Sample.globals true rest =
       ([EvNewConnection "unix:/run/sock"; EvSend "org.Foo.Bar" None 2; EvRecv],
        Halt Blocked).
Proof.
  intros w rest.
  destruct (oneway_reply_still_awaited w Sample.globals rest
              [EvNewConnection "unix:/run/sock"] [] (Sample.service RecvNever)
              "org.Foo.Bar" None RecvNever)
    as [H1 [_ [_ [H4 _]]]]; try reflexivity.
  split; [exact H1 | exact H4].
Defined.

(** ** The [--debug] flag *)

(** The values already set only pile up under those a parse adds. *)
Lemma Parse_actual (formal : list Flag.Flag) (n : nat) :
  forall args actual,
    (List.length args <= n)%nat ->
    Flag.Parse formal args actual =
    match Flag.Parse formal args [] with
    | Flag.Parsed added rest => Flag.Parsed (added ++ actual)%list rest
    | Flag.ParseFailed e => Flag.ParseFailed e
    end.
Proof.
  induction n as [| n IH]; intros args actual Hlen.
  - destruct args; [reflexivity | simpl in Hlen; lia].
  - destruct args as [| s rest]; [reflexivity |].
    simpl in Hlen. cbn [Flag.Parse].
    assert (Hstep : forall entry tail, (List.length tail <= n)%nat ->
      Flag.Parse formal tail (entry :: actual) =
      match Flag.Parse formal tail [entry] with
      | Flag.Parsed added rest' => Flag.Parsed (added ++ actual)%list rest'
      | Flag.ParseFailed e => Flag.ParseFailed e
      end).
    { intros entry tail Ht.
      rewrite (IH tail (entry :: actual) Ht), (IH tail [entry] Ht).
      destruct (Flag.Parse formal tail []) as [added rest' | e]; [| reflexivity].
      rewrite <- app_assoc. reflexivity. }
    destruct (Flag.classify formal s) as [| | e | name value | name value];
      try reflexivity.
    + destruct value as [v |].
      * destruct (Flag.ParseBool v) as [b |]; [| reflexivity].
        apply Hstep. lia.
      * apply Hstep. lia.
    + destruct value as [v |].
      * apply Hstep. lia.
      * destruct rest as [| v rest']; [reflexivity |].
        simpl in Hlen. apply Hstep. lia.
Qed.

(** A prefix made only of complete flags is consumed whatever follows. *)
Lemma Parse_OnlyFlags (formal : list Flag.Flag) (pre : list string) :
  Flag.OnlyFlags formal pre ->
  exists added, forall tail actual,
    Flag.Parse formal (pre ++ tail)%list actual
    = Flag.Parse formal tail (added ++ actual)%list.
Proof.
  induction 1 as [| s name value rest Hc Hv _ [added IH]
                  | s name v rest Hc _ [added IH]
                  | s name v rest Hc _ [added IH]].
  - exists []. reflexivity.
  - destruct value as [v |].
    + destruct (Flag.ParseBool v) as [b |] eqn:Eb;
        [| exfalso; exact (Hv v eq_refl Eb)].
      exists (added ++ [(name, Flag.BoolValue b)])%list. intros tail actual.
      cbn [app Flag.Parse]. rewrite Hc, Eb, IH, <- app_assoc. reflexivity.
    + exists (added ++ [(name, Flag.BoolValue true)])%list. intros tail actual.
      cbn [app Flag.Parse]. rewrite Hc, IH, <- app_assoc. reflexivity.
  - exists (added ++ [(name, Flag.StringValue v)])%list. intros tail actual.
    cbn [app Flag.Parse]. rewrite Hc, IH, <- app_assoc. reflexivity.
  - exists (added ++ [(name, Flag.StringValue v)])%list. intros tail actual.
    cbn [app Flag.Parse]. rewrite Hc, IH, <- app_assoc. reflexivity.
Qed.

Lemma stringVar_skips_debug (added actual : Flag.Actual) (b : bool)
    (name def : string) :
  String.eqb "debug" name = false ->
  Flag.stringVar (added ++ ("debug", Flag.BoolValue b) :: actual)%list name def
  = Flag.stringVar (added ++ actual)%list name def.
Proof.
  intro H. induction added as [| [n v] added IH].
  - cbn [app Flag.stringVar]. rewrite H. reflexivity.
  - cbn [app Flag.stringVar]. rewrite IH. reflexivity.
Qed.

(** C10. The variable bound to [--debug] is never read: a command line with
    [--debug] among its global options runs exactly as the same command line
    without it, in every world: same events on both streams, same exit. *)
Theorem debug_flag_has_no_effect (w : World) (pre post : list string) :
  Flag.OnlyFlags (Flag.Formal commandLine) pre ->
  main w (pre ++ "--debug" :: post)%list = main w (pre ++ post)%list.
Proof.
  intro Hpre.
  destruct (Parse_OnlyFlags _ _ Hpre) as [added Hadd].
  unfold main, FlagSet_Parse. rewrite !Hadd.
  change (Flag.Parse (Flag.Formal commandLine) ("--debug" :: post) (added ++ [])%list)
    with (Flag.Parse (Flag.Formal commandLine) post
            (("debug", Flag.BoolValue true) :: added ++ [])%list).
  rewrite (Parse_actual _ (List.length post) post
             (("debug", Flag.BoolValue true) :: added ++ [])%list (le_n _)).
  rewrite (Parse_actual _ (List.length post) post (added ++ [])%list (le_n _)).
  destruct (Flag.Parse (Flag.Formal commandLine) post []) as [more rest | e];
    [| reflexivity].
  rewrite !bind_ret_l. cbn [fst snd].
  rewrite !(stringVar_skips_debug more (added ++ [])%list true); reflexivity.
Qed.

Lemma debug_flag_has_no_effect_witness :
  let w := Sample.world (RecvReply (Some [])) in
  main w ["--bridge"; "ssh host varlink bridge"; "--color=off"; "--debug";
          "call"; "org.Foo.Bar"; "{}"]
  = main w ["--bridge"; "ssh host varlink bridge"; "--color=off";
            "call"; "org.Foo.Bar"; "{}"].
Proof.
  intro w.
  apply (debug_flag_has_no_effect w
           ["--bridge"; "ssh host varlink bridge"; "--color=off"]
           ["call"; "org.Foo.Bar"; "{}"]).
  eapply Flag.OnlyFlags_string_next; [reflexivity |].
  eapply Flag.OnlyFlags_string_eq; [reflexivity |].
  apply Flag.OnlyFlags_nil.
Defined.

(** * Further properties of the code *)

(** ** The split point *)

Lemma LastIndex_reference (uri : string) :
  Strings.LastIndex uri "/" =
  match resolve_reference uri with
  | Some (addr, _) => Strings.len addr
  | None => (-1)%Z
  end.
Proof.
  unfold Strings.LastIndex. rewrite LastIndex_from_reference.
  destruct (resolve_reference uri) as [[addr ref] |]; [apply Z.add_0_l | reflexivity].
Qed.

Lemma get_after_prefix (a b : string) (c : ascii) :
  String.get (String.length a) (a ++ String c b) = Some c.
Proof. induction a as [| x a IH]; [reflexivity | exact IH]. Qed.

(** X1. The split of lines 85-93 (and 192-207) loses nothing: the argument
    splits into [address] and [reference] exactly when it is
    [address ++ "/" ++ reference] and the reference holds no [/]. *)
Theorem splitTarget_roundtrip (uri address reference : string) :
  splitTarget uri = Some (address, reference)
  <-> uri = address ++ "/" ++ reference
      /\ Strings.contains_byte slash reference = false.
Proof.
  rewrite splitTarget_reference. split.
  - apply resolve_reference_shape.
  - intros [-> H]. apply resolve_reference_app. exact H.
Qed.

(** X2. The index [li] computed at lines 85 and 192 is [-1] exactly when the
    argument holds no [/]; otherwise it lies within the argument, the byte
    at [li] is [/] and no [/] follows it, so the slices [uri[:li]] and
    [uri[li+1:]] are always within bounds. *)
Theorem split_point_in_range (uri : string) :
  let li := Strings.LastIndex uri "/" in
  (li = (-1)%Z <-> Strings.contains_byte slash uri = false)
  /\ (li <> (-1)%Z ->
      (0 <= li < Strings.len uri)%Z
      /\ String.get (Z.to_nat li) uri = Some slash
      /\ Strings.contains_byte slash (Strings.slice_from uri (li + 1)) = false).
Proof.
  intro li. subst li. rewrite LastIndex_reference.
  destruct (resolve_reference uri) as [[addr ref] |] eqn:E.
  - pose proof (len_nonneg addr) as Ha.
    destruct (resolve_reference_shape _ _ _ E) as [-> Href].
    split.
    + split; [lia |]. intro H. apply resolve_reference_none in H.
      rewrite H in E. discriminate E.
    + intros _. split; [| split].
      * rewrite !len_app. pose proof (len_nonneg ref).
        change (Strings.len "/") with 1%Z. lia.
      * unfold Strings.len. rewrite Nat2Z.id. apply get_after_prefix.
      * replace (Strings.len addr + 1)%Z with (Strings.len (addr ++ "/"))
          by (rewrite len_app; reflexivity).
        rewrite <- append_assoc, slice_from_app. exact Href.
  - split.
    + split; [intros _; apply resolve_reference_none; exact E | reflexivity].
    + intro H. contradiction H. reflexivity.
Qed.

(** ** [main] and the shape of its runs *)

Lemma main_parsed (w : World) (args : list string) (actual : Flag.Actual)
    (rest : list string) :
  Flag.Parse (Flag.Formal commandLine) args [] = Flag.Parsed actual rest ->
  main w args = dispatch w (mainGlobals w actual) rest.
Proof.
  intro H. unfold main, FlagSet_Parse. rewrite H, bind_ret_l. reflexivity.
Qed.

Lemma filter_no_transport (t : list Event) :
  Forall no_transport t -> filter is_transport t = [].
Proof.
  induction 1 as [| e t He _ IH]; [reflexivity |].
  simpl. unfold no_transport in He. rewrite He. exact IH.
Qed.

Lemma printUsage_writes (w : World) (set : option Flag.FlagSet) (arg_help : string) :
  exists text t,
    printUsage w set arg_help = (EvStderr text :: t, Halt (Exited 1))
    /\ Forall no_transport t /\ Forall no_stdout t.
Proof.
  destruct set as [fs |]; eexists; eexists; (split; [reflexivity |]);
    split; repeat constructor.
Qed.

Lemma Disciplined_usage (marker : string) (t : list Event) :
  Forall no_transport t -> Forall no_stdout t ->
  (exists text, In (EvStderr text) t) ->
  Disciplined marker (t, Halt (Exited 1)).
Proof.
  intros Ht Ho Hs. split.
  - unfold trace. simpl. rewrite (filter_no_transport t Ht). reflexivity.
  - simpl. split; [exact Ho |]. left. repeat split; assumption.
Qed.

(** A failed parse is a disciplined end; a successful one hands over. *)
Lemma FlagSet_Parse_disciplined (w : World) (fs : Flag.FlagSet)
    (set : option Flag.FlagSet) (arg_help : string) (args : list string)
    (marker : string) (k : Flag.Actual * list string -> M unit) :
  (forall actual rest,
      Flag.Parse (Flag.Formal fs) args [] = Flag.Parsed actual rest ->
      Disciplined marker (k (actual, rest))) ->
  Disciplined marker (bind (FlagSet_Parse w fs (printUsage w set arg_help) args) k).
Proof.
  intro Hk. unfold FlagSet_Parse.
  destruct (Flag.Parse (Flag.Formal fs) args []) as [actual rest | e].
  - rewrite bind_ret_l. apply Hk. reflexivity.
  - destruct (printUsage_writes w set arg_help) as [text [t [E [Ht Ho]]]]. rewrite E.
    destruct e; cbn; apply Disciplined_usage;
      repeat constructor; try assumption; eexists; simpl; eauto.
Qed.

(** Case analysis on the next answer of a collaborator or test of the code. *)
Ltac next_case :=
  match goal with
  | |- context [match ?x with _ => _ end] =>
      lazymatch x with
      | context [match _ with _ => _ end] => fail
      | _ => destruct x eqn:?
      end
  end.

Ltac disciplined_end :=
  unfold Disciplined, trace; cbn;
  repeat match goal with
         | |- _ /\ _ => split
         end;
  try reflexivity;
  try (repeat constructor; fail);
  try (left; repeat split; [repeat constructor | eexists; simpl; eauto]; fail);
  try (right; split; [reflexivity | simpl; auto 20]; fail);
  try (simpl; auto 20; fail).

Lemma varlinkInfo_disciplined (w : World) (g : Globals) (args : list string) :
  Disciplined (errorBoldRed g ++ " ") (varlinkInfo w g args).
Proof.
  unfold varlinkInfo, infoUsage.
  apply FlagSet_Parse_disciplined. intros actual rest _. cbn [fst snd].
  unfold when, infoUsage, printUsage, infoTarget, connectBridge, connectAddress,
    when, errPrintf, Fprint_stderr, Print_stdout, emit, os_Exit, ret.
  repeat (next_case; cbn); disciplined_end.
Qed.

Lemma varlinkHelp_disciplined (w : World) (g : Globals) (args : list string) :
  Disciplined (errorBoldRed g ++ " ") (varlinkHelp w g args).
Proof.
  unfold varlinkHelp, helpUsage.
  apply FlagSet_Parse_disciplined. intros actual rest _. cbn [fst snd].
  unfold when, helpUsage, printUsage, helpTarget, connectBridge, connectAddress,
    when, errPrintf, Fprint_stderr, Print_stdout, emit, os_Exit, ret.
  repeat (next_case; cbn); disciplined_end.
Qed.

Lemma varlinkCall_disciplined (w : World) (g : Globals) (args : list string) :
  Disciplined (errorBoldRed g ++ " ") (varlinkCall w g args).
Proof.
  unfold varlinkCall, callUsage.
  apply FlagSet_Parse_disciplined. intros actual rest _. cbn [fst snd].
  unfold when, varlinkCall_body, callInvoke, callRender, callParameters, callUsage,
    printUsage, callTarget, connectBridge, connectAddress,
    when, errPrintf, Fprint_stderr, Print_stdout, emit, os_Exit, ret, panic, block.
  repeat (next_case; cbn); disciplined_end.
Qed.

Lemma main_disciplined (w : World) (args : list string) :
  Disciplined (mainMarker w args) (main w args).
Proof.
  unfold mainMarker.
  destruct (Flag.Parse (Flag.Formal commandLine) args []) as [actual rest | e] eqn:E.
  - rewrite (main_parsed w args actual rest E). unfold dispatch.
    destruct (String.eqb (Flag.Arg rest 0) "info");
      [apply varlinkInfo_disciplined |].
    destruct (String.eqb (Flag.Arg rest 0) "help");
      [apply varlinkHelp_disciplined |].
    destruct (String.eqb (Flag.Arg rest 0) "call");
      [apply varlinkCall_disciplined |].
    destruct (printUsage_writes w None "") as [text [t [Eu [Ht Ho]]]]. rewrite Eu.
    apply Disciplined_usage; repeat constructor; try assumption.
    eexists; simpl; eauto.
  - unfold main, FlagSet_Parse. rewrite E.
    destruct (printUsage_writes w None "") as [text [t [Eu [Ht Ho]]]]. rewrite Eu.
    destruct e; cbn; apply Disciplined_usage;
      repeat constructor; try assumption; eexists; simpl; eauto.
Qed.

Lemma filter_dial_transport (t : list Event) :
  filter is_dial (filter is_transport t) = filter is_dial t.
Proof.
  induction t as [| e t IH]; [reflexivity |].
  destruct e; simpl; rewrite IH; reflexivity.
Qed.

Lemma filter_send_transport (t : list Event) :
  filter is_send (filter is_transport t) = filter is_send t.
Proof.
  induction t as [| e t IH]; [reflexivity |].
  destruct e; simpl; rewrite IH; reflexivity.
Qed.

Lemma protocol_counts (l : list Event) :
  protocol l = true ->
  (List.length (filter is_dial l) <= 1)%nat
  /\ (List.length (filter is_send l) <= 1)%nat.
Proof.
  destruct l as [| d [| e1 [| e2 [| e3 l]]]]; simpl.
  - intros _. split; lia.
  - intros _. destruct d; simpl; split; lia.
  - destruct d; simpl; try discriminate; destruct e1; simpl;
      try discriminate; intros _; split; lia.
  - destruct d; simpl; try discriminate; destruct e1; simpl;
      try discriminate; destruct e2; simpl; try discriminate; intros _; split; lia.
  - destruct d; simpl; try discriminate; destruct e1; simpl;
      try discriminate; destruct e2; simpl; discriminate.
Qed.

Lemma no_stdout_not_in (t : list Event) (text : string) :
  Forall no_stdout t -> ~ In (EvStdout text) t.
Proof.
  intros H Hin. rewrite Forall_forall in H. exact (H _ Hin).
Qed.

Lemma no_stderr_not_in (t : list Event) (text : string) :
  Forall no_stderr t -> ~ In (EvStderr text) t.
Proof.
  intros H Hin. rewrite Forall_forall in H. exact (H _ Hin).
Qed.

(** X3. One connection and one request per run: whatever the command line
    and the world, the calls [main] makes into the transport are none, or
    one connection attempt followed by at most one request ([Send], then
    possibly its reply accessor; or [GetInfo]; or
    [GetInterfaceDescription]).  In particular a run dials at most once and
    sends at most once. *)
Theorem one_connection_one_request (w : World) (args : list string) :
  protocol (filter is_transport (trace (main w args))) = true
  /\ (List.length (filter is_dial (trace (main w args))) <= 1)%nat
  /\ (List.length (filter is_send (trace (main w args))) <= 1)%nat.
Proof.
  destruct (main_disciplined w args) as [Hp _].
  split; [exact Hp |].
  rewrite <- filter_dial_transport, <- filter_send_transport.
  apply protocol_counts. exact Hp.
Qed.

(** X4. The two streams are never mixed: a run of [main] that writes to the
    primary output stream returns normally and writes nothing to the
    diagnostic stream; a run that writes to the diagnostic stream writes
    nothing to the primary one and ends with exit code 1 or 2 or in a
    panic. *)
Theorem streams_never_mixed (w : World) (args : list string) :
  (forall text, In (EvStdout text) (trace (main w args)) ->
     snd (main w args) = Ret tt /\ Forall no_stderr (trace (main w args)))
  /\ (forall text, In (EvStderr text) (trace (main w args)) ->
        Forall no_stdout (trace (main w args))
        /\ (status (main w args) = Exited 1
            \/ status (main w args) = Exited 2
            \/ status (main w args) = Panicked)).
Proof.
  destruct (main_disciplined w args) as [_ H]. unfold status.
  destruct (snd (main w args)) as [[] | [c | |]].
  - destruct H as [He _]. split.
    + intros text _. split; [reflexivity | exact He].
    + intros text Hin. exfalso. exact (no_stderr_not_in _ _ He Hin).
  - destruct H as [Ho Hc]. split.
    + intros text Hin. exfalso. exact (no_stdout_not_in _ _ Ho Hin).
    + intros text _. split; [exact Ho |].
      destruct Hc as [[-> _] | [-> _]]; auto.
  - destruct H as [Ho [He _]]. split.
    + intros text Hin. exfalso. exact (no_stdout_not_in _ _ Ho Hin).
    + intros text Hin. exfalso. exact (no_stderr_not_in _ _ He Hin).
  - destruct H as [Ho _]. split.
    + intros text Hin. exfalso. exact (no_stdout_not_in _ _ Ho Hin).
    + intros text _. split; [exact Ho | auto].
Qed.

(** X5. Exit codes.  A run of [main] that ends through [os.Exit] or by
    returning from [main] ends with code 0, 1 or 2.  Code 0 is reached only
    by returning from [main] after a final write to the primary output
    stream; code 1 only without any call into the transport, after a write
    to the diagnostic stream; code 2 only after [errPrintf] has written its
    marker, with nothing on the primary output stream. *)
Theorem exit_status_taxonomy (w : World) (args : list string) (c : Z) :
  status (main w args) = Exited c ->
  (c = 0%Z /\ snd (main w args) = Ret tt
   /\ ends_with_stdout (trace (main w args)) = true)
  \/ (c = 1%Z /\ Forall no_transport (trace (main w args))
      /\ exists text, In (EvStderr text) (trace (main w args)))
  \/ (c = 2%Z /\ In (EvStderr (mainMarker w args)) (trace (main w args))
      /\ Forall no_stdout (trace (main w args))).
Proof.
  destruct (main_disciplined w args) as [_ H]. unfold status.
  destruct (snd (main w args)) as [[] | [c' | |]]; intro Hc;
    try discriminate Hc; inversion Hc; subst.
  - left. destruct H as [_ H]. repeat split. exact H.
  - destruct H as [Ho [[-> [Ht Hs]] | [-> Hm]]].
    + right. left. repeat split; assumption.
    + right. right. repeat split; assumption.
Qed.

Lemma exit_status_taxonomy_witness :
  status (main (Sample.world RecvNever) ["info"]) = Exited 1
  /\ Forall no_transport (trace (main (Sample.world RecvNever) ["info"])).
Proof.
  split; [reflexivity |].
  destruct (exit_status_taxonomy (Sample.world RecvNever) ["info"] 1 eq_refl)
    as [[H _] | [[_ [H _]] | [H _]]]; [discriminate H | exact H | discriminate H].
Defined.

(** ** Usage errors *)

Lemma FlagSet_Parse_failed (w : World) (fs : Flag.FlagSet)
    (set : option Flag.FlagSet) (arg_help : string) (args : list string)
    (e : Flag.FlagError) {B : Type} (k : Flag.Actual * list string -> M B) :
  Flag.Parse (Flag.Formal fs) args [] = Flag.ParseFailed e ->
  bind (FlagSet_Parse w fs (printUsage w set arg_help) args) k =
  ((match e with
    | Flag.ErrHelp => []
    | _ => [EvStderr (flag_errorText w e ++ nl)]
    end ++ trace (printUsage w set arg_help))%list,
   Halt (Exited 1)).
Proof.
  intro H. unfold FlagSet_Parse. rewrite H.
  destruct (printUsage_exits w set arg_help) as [t [E _]]. rewrite E.
  destruct e; reflexivity.
Qed.

(** X6. A command line the flag parser rejects, at the global options or at
    the options of [help] or [info], ends the run with exit code 1: the
    parser's message (none for an undefined [-h] or [--help]) and then the
    usage text go to the diagnostic stream, [printUsage] exits, and the exit
    code 2 of [flag.ExitOnError] is never reached. *)
Theorem rejected_flags_exit_1 (w : World) (g : Globals) (args : list string)
    (e : Flag.FlagError) :
  let message :=
    match e with
    | Flag.ErrHelp => []
    | _ => [EvStderr (flag_errorText w e ++ nl)]
    end in
  (Flag.Parse (Flag.Formal commandLine) args [] = Flag.ParseFailed e ->
   main w args = ((message ++ trace (printUsage w None ""))%list, Halt (Exited 1)))
  /\ (Flag.Parse (Flag.Formal helpFlags) args [] = Flag.ParseFailed e ->
      varlinkHelp w g args = ((message ++ trace (helpUsage w))%list, Halt (Exited 1)))
  /\ (Flag.Parse (Flag.Formal infoFlags) args [] = Flag.ParseFailed e ->
      varlinkInfo w g args = ((message ++ trace (infoUsage w))%list, Halt (Exited 1))).
Proof.
  intro message. repeat split; intro H.
  - exact (FlagSet_Parse_failed w commandLine None "" args e _ H).
  - exact (FlagSet_Parse_failed w helpFlags (Some helpFlags) _ args e _ H).
  - exact (FlagSet_Parse_failed w infoFlags (Some infoFlags) _ args e _ H).
Qed.

Lemma rejected_flags_exit_1_witness :
  let w := Sample.world RecvNever in
  status (main w ["--help"]) = Exited 1
  /\ status (main w ["--color"]) = Exited 1
  /\ status (varlinkInfo w Sample.globals ["--debug"; "unix:/run/sock"]) = Exited 1.
Proof.
  intro w.
  destruct (rejected_flags_exit_1 w Sample.globals ["--help"] Flag.ErrHelp)
    as [H1 _].
  destruct (rejected_flags_exit_1 w Sample.globals ["--color"]
              (Flag.ErrNeedsArgument "color")) as [H2 _].
  destruct (rejected_flags_exit_1 w Sample.globals ["--debug"; "unix:/run/sock"]
              (Flag.ErrNotDefined "debug")) as [_ [_ H3]].
  rewrite (H1 eq_refl), (H2 eq_refl), (H3 eq_refl). repeat split.
Defined.

(** X7. When the [help] option of [help] or [info] is set, the command
    does nothing but print its usage: [varlinkHelp] and [varlinkInfo] then
    behave as their [usage] closure, which exits 1, and no connection is
    attempted whatever the other arguments are. *)
Theorem help_option_prints_usage (w : World) (g : Globals) (args : list string)
    (actual : Flag.Actual) (rest : list string) :
  Flag.boolVar actual "help" false = true ->
  (Flag.Parse (Flag.Formal helpFlags) args [] = Flag.Parsed actual rest ->
   varlinkHelp w g args = helpUsage w)
  /\ (Flag.Parse (Flag.Formal infoFlags) args [] = Flag.Parsed actual rest ->
      varlinkInfo w g args = infoUsage w)
  /\ status (helpUsage w) = Exited 1
  /\ status (infoUsage w) = Exited 1
  /\ Forall no_transport (trace (helpUsage w))
  /\ Forall no_transport (trace (infoUsage w)).
Proof.
  intro Hh.
  split; [| split].
  - intro H. unfold varlinkHelp, FlagSet_Parse. rewrite H, bind_ret_l.
    cbn [fst snd]. rewrite Hh. reflexivity.
  - intro H. unfold varlinkInfo, FlagSet_Parse. rewrite H, bind_ret_l.
    cbn [fst snd]. rewrite Hh. reflexivity.
  - repeat split; repeat constructor.
Qed.

Lemma help_option_prints_usage_witness :
  let w := Sample.world RecvNever in
  varlinkHelp w Sample.globals ["--help"; "unix:/run/sock/org.varlink.service"]
  = helpUsage w
  /\ status (helpUsage w) = Exited 1.
Proof.
  intro w.
  destruct (help_option_prints_usage w Sample.globals
              ["--help"; "unix:/run/sock/org.varlink.service"]
              [("help", Flag.BoolValue true)] ["unix:/run/sock/org.varlink.service"])
    as [H1 [_ [H3 _]]].
  - reflexivity.
  - split; [apply H1; reflexivity | exact H3].
Defined.

(** X8. [help] and the call flow without a target: with no bridge
    configured and no positional argument, [varlinkHelp] writes the
    missing-address diagnostic and then its usage, and the call flow of
    lines 66-155 goes straight to its usage; both end with exit code 1
    before any connection attempt. *)
Theorem help_and_call_without_target (w : World) (g : Globals)
    (args : list string) (actual : Flag.Actual) (rest : list string)
    (oneway : bool) :
  bridge g = "" ->
  Flag.Arg rest 0 = "" ->
  (Flag.Parse (Flag.Formal helpFlags) args [] = Flag.Parsed actual rest ->
   Flag.boolVar actual "help" false = false ->
   varlinkHelp w g args =
   ((EvStderr (errorBoldRed g ++ " ")
     :: EvStderr ("No ADDRESS or activation or bridge" ++ nl ++ nl)
     :: trace (helpUsage w))%list, Halt (Exited 1)))
  /\ varlinkCall_body w g oneway rest = callUsage w
  /\ status (callUsage w) = Exited 1
  /\ Forall no_transport (trace (helpUsage w))
  /\ Forall no_transport (trace (callUsage w)).
Proof.
  intros Hb Ha. split; [| split; [| split; [reflexivity | split; repeat constructor]]].
  - intros H Hh. unfold varlinkHelp, FlagSet_Parse. rewrite H, bind_ret_l.
    cbn [fst snd]. rewrite Hh. unfold when at 1. rewrite bind_ret_l.
    unfold helpTarget. rewrite (bridge_len_empty g Hb), Ha, Hb. reflexivity.
  - unfold varlinkCall_body, callTarget.
    rewrite (bridge_len_empty g Hb), Ha. reflexivity.
Qed.

Lemma help_and_call_without_target_witness :
  let w := Sample.world RecvNever in
  varlinkCall_body w Sample.globals false [] = callUsage w
  /\ status (varlinkHelp w Sample.globals []) = Exited 1.
Proof.
  intro w.
  destruct (help_and_call_without_target w Sample.globals [] [] [] false)
    as [H1 [H2 _]]; try reflexivity.
  split; [exact H2 | rewrite (H1 eq_refl eq_refl); reflexivity].
Defined.

(** X9. A first argument that is not [info], [help] or [call] (a missing
    one included) makes [main] print the global usage, with the list of
    commands, and exit 1; nothing else happens. *)
Theorem unknown_command_prints_usage (w : World) (args : list string)
    (actual : Flag.Actual) (rest : list string) :
  Flag.Parse (Flag.Formal commandLine) args [] = Flag.Parsed actual rest ->
  Flag.Arg rest 0 <> "info" -> Flag.Arg rest 0 <> "help" ->
  Flag.Arg rest 0 <> "call" ->
  main w args = printUsage w None ""
  /\ status (main w args) = Exited 1
  /\ Forall no_transport (trace (main w args)).
Proof.
  intros H Hi Hh Hc.
  assert (E : main w args = printUsage w None "").
  { rewrite (main_parsed w args actual rest H). unfold dispatch.
    apply String.eqb_neq in Hi, Hh, Hc. rewrite Hi, Hh, Hc. reflexivity. }
  rewrite E. repeat split; repeat constructor.
Qed.

Lemma unknown_command_prints_usage_witness :
  status (main (Sample.world RecvNever) ["--color=on"; "Info"; "unix:/run/sock"])
  = Exited 1.
Proof.
  apply (unknown_command_prints_usage (Sample.world RecvNever)
           ["--color=on"; "Info"; "unix:/run/sock"]
           [("color", Flag.StringValue "on")] ["Info"; "unix:/run/sock"]);
    [reflexivity | discriminate ..].
Defined.

(** ** The connection target *)

Lemma target_ok_no_transport (g : Globals) (t : list Event) :
  Forall no_transport t -> Forall (target_ok g) t.
Proof.
  apply Forall_impl. intros e H. destruct e; try exact I; discriminate H.
Qed.

Lemma FlagSet_Parse_target_ok (w : World) (g : Globals) (fs : Flag.FlagSet)
    (set : option Flag.FlagSet) (arg_help : string) (args : list string)
    (k : Flag.Actual * list string -> M unit) :
  (forall actual rest, Forall (target_ok g) (trace (k (actual, rest)))) ->
  Forall (target_ok g)
    (trace (bind (FlagSet_Parse w fs (printUsage w set arg_help) args) k)).
Proof.
  intro Hk. unfold FlagSet_Parse.
  destruct (Flag.Parse (Flag.Formal fs) args []) as [actual rest | e].
  - rewrite bind_ret_l. apply Hk.
  - destruct (printUsage_exits w set arg_help) as [t [E [Ht _]]]. rewrite E.
    destruct e; cbn; apply target_ok_no_transport; repeat constructor; exact Ht.
Qed.

Ltac target_cases g :=
  destruct (String.eqb_spec (bridge g) "") as [Hb | Hb];
  [rewrite (bridge_len_empty g Hb) | rewrite (bridge_len_nonempty g Hb)];
  cbn;
  repeat (next_case; cbn);
  unfold trace; cbn;
  repeat (apply Forall_cons || apply Forall_nil);
  cbn; auto.

(** X10. The connection target is one or the other, never both: in every
    run of a command, a bridge is started only when a bridge command is
    configured, and then with exactly that command; an address is dialed
    only when no bridge is configured. *)
Theorem bridge_and_address_exclusive (w : World) (g : Globals) (args : list string) :
  Forall (target_ok g) (trace (varlinkCall w g args))
  /\ Forall (target_ok g) (trace (varlinkHelp w g args))
  /\ Forall (target_ok g) (trace (varlinkInfo w g args)).
Proof.
  split; [| split].
  - unfold varlinkCall, callUsage.
    apply FlagSet_Parse_target_ok. intros actual rest. cbn [fst snd].
    unfold when, varlinkCall_body, callInvoke, callRender, callParameters,
      callUsage, printUsage, callTarget, connectBridge, connectAddress,
      when, errPrintf, Fprint_stderr, Print_stdout, emit, os_Exit, ret, panic, block.
    target_cases g.
  - unfold varlinkHelp, helpUsage.
    apply FlagSet_Parse_target_ok. intros actual rest. cbn [fst snd].
    unfold when, helpUsage, printUsage, helpTarget, connectBridge, connectAddress,
      when, errPrintf, Fprint_stderr, Print_stdout, emit, os_Exit, ret.
    target_cases g.
  - unfold varlinkInfo, infoUsage.
    apply FlagSet_Parse_target_ok. intros actual rest. cbn [fst snd].
    unfold when, infoUsage, printUsage, infoTarget, connectBridge, connectAddress,
      when, errPrintf, Fprint_stderr, Print_stdout, emit, os_Exit, ret.
    target_cases g.
Qed.

(** ** The help flow *)

Lemma helpTarget_no_stdout (w : World) (g : Globals) (rest : list string) :
  Forall no_stdout (trace (helpTarget w g rest)).
Proof.
  unfold helpTarget, helpUsage, printUsage, connectBridge, connectAddress,
    when, errPrintf, Fprint_stderr, emit, os_Exit, ret.
  repeat (next_case; cbn); unfold trace; cbn; repeat constructor.
Qed.

Lemma stdout_of_after_silence (t u : list Event) :
  Forall no_stdout t -> stdout_of (t ++ u)%list = stdout_of u.
Proof.
  induction 1 as [| e t He _ IH]; [reflexivity |].
  destruct e; simpl; try exact IH. destruct He.
Qed.

Lemma append_empty_r (a : string) : a ++ "" = a.
Proof. induction a as [| c a IH]; simpl; [| rewrite IH]; reflexivity. Qed.

(** X12. The interface description is printed as the service returned it.
    Once [varlinkHelp] has its connection and interface name, a description
    [d] returned by [GetInterfaceDescription] is written to the primary
    output stream as [d] followed by a newline, and that is all the run
    writes there, whatever the colour setting; an error is reported on the
    diagnostic stream with the interface name and the cause, and the exit
    code is 2. *)
Theorem help_prints_description_verbatim (w : World) (g : Globals)
    (args : list string) (actual : Flag.Actual) (rest : list string)
    (t1 : list Event) (con : Connection) (iface : string) :
  Flag.Parse (Flag.Formal helpFlags) args [] = Flag.Parsed actual rest ->
  Flag.boolVar actual "help" false = false ->
  helpTarget w g rest = (t1, Ret (con, iface)) ->
  (forall d, GetInterfaceDescription con iface = Ok d ->
     varlinkHelp w g args =
       ((t1 ++ [EvGetInterfaceDescription iface; EvStdout (d ++ nl)])%list, Ret tt)
     /\ stdout_of (trace (varlinkHelp w g args)) = d ++ nl)
  /\ (forall e, GetInterfaceDescription con iface = Err e ->
        varlinkHelp w g args =
          ((t1 ++ [EvGetInterfaceDescription iface;
                   EvStderr (errorBoldRed g ++ " ");
                   EvStderr ("Cannot get interface description for '" ++ iface
                             ++ "': " ++ e ++ nl)])%list,
           Halt (Exited 2))).
Proof.
  intros Hp Hh Ht.
  assert (E : varlinkHelp w g args =
              ((t1 ++ trace (emit (EvGetInterfaceDescription iface) ;;
                             match GetInterfaceDescription con iface with
                             | Err e =>
                                 errPrintf g ("Cannot get interface description for '"
                                              ++ iface ++ "': " ++ e ++ nl) ;;
                                 os_Exit 2
                             | Ok description => Print_stdout (description ++ nl)
                             end))%list,
               snd (emit (EvGetInterfaceDescription iface) ;;
                    match GetInterfaceDescription con iface with
                    | Err e =>
                        errPrintf g ("Cannot get interface description for '"
                                     ++ iface ++ "': " ++ e ++ nl) ;;
                        os_Exit 2
                    | Ok description => Print_stdout (description ++ nl)
                    end))).
  { unfold varlinkHelp, FlagSet_Parse. rewrite Hp, bind_ret_l. cbn [fst snd].
    rewrite Hh. unfold when at 1. rewrite bind_ret_l, Ht, bind_value.
    reflexivity. }
  pose proof (helpTarget_no_stdout w g rest) as Hq. rewrite Ht in Hq.
  unfold trace in Hq. cbn [fst] in Hq.
  split.
  - intros d Hd. rewrite E, Hd. split; [reflexivity |].
    unfold trace. cbn [fst]. rewrite (stdout_of_after_silence _ _ Hq).
    cbn. apply append_empty_r.
  - intros e He. rewrite E, He. reflexivity.
Qed.

Lemma help_prints_description_verbatim_witness :
  let w := Sample.world RecvNever in
  stdout_of (trace (varlinkHelp w Sample.globals ["unix:/run/sock/org.varlink.service"]))
  = "interface org.varlink.service" ++ nl.
Proof.
  intro w.
  destruct (help_prints_description_verbatim w Sample.globals
              ["unix:/run/sock/org.varlink.service"] []
              ["unix:/run/sock/org.varlink.service"]
              [EvNewConnection "unix:/run/sock"] (Sample.service RecvNever)
              "org.varlink.service")
    as [H _]; [reflexivity | reflexivity | reflexivity |].
  exact (proj2 (H "interface org.varlink.service" eq_refl)).
Defined.

(** ** The call flow, end to end *)

(** X13. A call returns normally exactly when the target resolved, the
    parameters parsed, the send succeeded and the reply accessor delivered a
    reply; the run then consists of the connection, the request, the reply
    accessor and one write of the rendered reply to the primary output
    stream. *)
Theorem call_returns_iff_reply (w : World) (g : Globals) (oneway : bool)
    (rest : list string) :
  snd (varlinkCall_body w g oneway rest) = Ret tt
  <-> exists t1 con m t2 p retval,
        callTarget w g rest = (t1, Ret (con, m))
        /\ callParameters w g (Flag.Arg rest 1) = (t2, Ret p)
        /\ Send con m p (callFlagBits w oneway) = Ok (RecvReply retval)
        /\ varlinkCall_body w g oneway rest =
           ((t1 ++ t2
             ++ [EvSend m p (callFlagBits w oneway); EvRecv;
                 EvStdout (colorjson_Marshal w (NoColor g) callFormatter retval
                           ++ nl)])%list,
            Ret tt).
Proof.
  rewrite varlinkCall_body_unfold. split.
  - destruct (callTarget w g rest) as [t1 [[con m] | st]]; [| discriminate].
    destruct (callParameters w g (Flag.Arg rest 1)) as [t2 [p | st]];
      [| discriminate].
    cbn [fst snd]. unfold callInvoke.
    destruct (Send con m p (callFlagBits w oneway)) as [r | e] eqn:Es;
      [| discriminate].
    destruct r as [retval | [name [[raw |] |]] | e |]; try discriminate.
    intros _. exists t1, con, m, t2, p, retval. repeat split. exact Es.
  - intros [t1 [con [m [t2 [p [retval [-> [-> [Hs _]]]]]]]]].
    cbn [fst snd]. unfold callInvoke. rewrite Hs. reflexivity.
Qed.

(** X14. A failed send and a failed receive are both terminal and reported
    alike.  When [Send] returns an error the reply accessor is never called;
    when the reply accessor returns an error that is not a structured
    varlink error, it is not rendered as one.  Either way the diagnostic is
    [Error calling '<method>': <cause>], nothing reaches the primary output
    stream and the exit code is 2. *)
Theorem transport_failures_reported (w : World) (g : Globals) (oneway : bool)
    (rest : list string) (t1 t2 : list Event) (con : Connection) (m : string)
    (p : option RawMessage) :
  callTarget w g rest = (t1, Ret (con, m)) ->
  callParameters w g (Flag.Arg rest 1) = (t2, Ret p) ->
  let report e :=
    [EvStderr (errorBoldRed g ++ " ");
     EvStderr ("Error calling '" ++ m ++ "': " ++ e ++ nl)] in
  (forall e, Send con m p (callFlagBits w oneway) = Err e ->
     varlinkCall_body w g oneway rest =
     ((t1 ++ t2 ++ EvSend m p (callFlagBits w oneway) :: report e)%list,
      Halt (Exited 2)))
  /\ (forall e, Send con m p (callFlagBits w oneway) = Ok (RecvError e) ->
        varlinkCall_body w g oneway rest =
        ((t1 ++ t2 ++ EvSend m p (callFlagBits w oneway) :: EvRecv :: report e)%list,
         Halt (Exited 2))).
Proof.
  intros Ht Hp report. rewrite varlinkCall_body_unfold, Ht, Hp. cbn [fst snd].
  unfold callInvoke. split; intros e Hs; rewrite Hs; reflexivity.
Qed.

Lemma transport_failures_reported_witness :
  let w := Sample.world (RecvError "EOF") in
  varlinkCall_body w Sample.globals false ["unix:/run/sock/org.Foo.Bar"] =
  ([EvNewConnection "unix:/run/sock"; EvSend "org.Foo.Bar" None 0; EvRecv;
    EvStderr "Error: "; EvStderr ("Error calling 'org.Foo.Bar': EOF" ++ nl)],
   Halt (Exited 2)).
Proof.
  intro w.
  destruct (transport_failures_reported w Sample.globals false
              ["unix:/run/sock/org.Foo.Bar"] [EvNewConnection "unix:/run/sock"] []
              (Sample.service (RecvError "EOF")) "org.Foo.Bar" None)
    as [_ H]; [reflexivity | reflexivity |].
  exact (H "EOF" eq_refl).
Defined.

(** X15. The type assertion of line 141 is unchecked: a structured error
    whose [Parameters] field does not hold a [*json.RawMessage] makes the
    run panic, after the error name has been written to the diagnostic
    stream. *)
Theorem foreign_error_parameters_panic (w : World) (g : Globals) (oneway : bool)
    (rest : list string) (t1 t2 : list Event) (con : Connection) (m : string)
    (p : option RawMessage) (e : VarlinkError) :
  callTarget w g rest = (t1, Ret (con, m)) ->
  callParameters w g (Flag.Arg rest 1) = (t2, Ret p) ->
  Send con m p (callFlagBits w oneway) = Ok (RecvVarlinkError e) ->
  EParameters e = OtherDynamicType ->
  varlinkCall_body w g oneway rest =
  ((t1 ++ t2
    ++ [EvSend m p (callFlagBits w oneway); EvRecv;
        EvStderr (errorBoldRed g ++ " ");
        EvStderr ("Call failed with error: "
                  ++ Sprint w (NoColor g) FgRed (EName e) ++ nl)])%list,
   Halt Panicked).
Proof.
  intros Ht Hp Hs He. rewrite varlinkCall_body_unfold, Ht, Hp. cbn [fst snd].
  unfold callInvoke, callRender. rewrite Hs, He. reflexivity.
Qed.

Lemma foreign_error_parameters_panic_witness :
  let e := mkVarlinkError "org.varlink.service.InvalidParameter" OtherDynamicType in
  let w := Sample.world (RecvVarlinkError e) in
  status (varlinkCall_body w Sample.globals false ["unix:/run/sock/org.Foo.Bar"])
  = Panicked.
Proof.
  intros e w.
  rewrite (foreign_error_parameters_panic w Sample.globals false
             ["unix:/run/sock/org.Foo.Bar"] [EvNewConnection "unix:/run/sock"] []
             (Sample.service (RecvVarlinkError e)) "org.Foo.Bar" None e);
    reflexivity.
Defined.

(** X16. A trailing [/] is not rejected.  With no bridge, an argument
    [address/] dials [address] and, once connected, the request is sent with
    the empty method name. *)
Theorem trailing_slash_sends_empty_method (w : World) (g : Globals)
    (oneway : bool) (rest : list string) (address : string) (con : Connection) :
  bridge g = "" ->
  Flag.Arg rest 0 = address ++ "/" ->
  NewConnection w address = Ok con ->
  splitTarget (address ++ "/") = Some (address, "")
  /\ callTarget w g rest = ([EvNewConnection address], Ret (con, ""))
  /\ forall t2 p, callParameters w g (Flag.Arg rest 1) = (t2, Ret p) ->
       exists tail,
         trace (varlinkCall_body w g oneway rest) =
         (EvNewConnection address :: t2
          ++ EvSend "" p (callFlagBits w oneway) :: tail)%list.
Proof.
  intros Hb Ha Hc.
  assert (Hs : splitTarget (address ++ "/") = Some (address, "")).
  { rewrite splitTarget_reference.
    apply (resolve_reference_app address ""). reflexivity. }
  assert (Ht : callTarget w g rest = ([EvNewConnection address], Ret (con, ""))).
  { unfold callTarget. rewrite (bridge_len_empty g Hb), Ha, Hs.
    assert (Hn : String.eqb (address ++ "/") "" = false)
      by (destruct address; reflexivity).
    rewrite Hn. unfold when. rewrite bind_ret_l.
    unfold connectAddress. rewrite Hc. reflexivity. }
  split; [exact Hs |]. split; [exact Ht |].
  intros t2 p Hp. rewrite varlinkCall_body_unfold, Ht, Hp. cbn [fst snd].
  destruct (callInvoke_trace w g oneway con "" p) as [tail [E _]].
  exists tail. unfold trace at 1. cbn [fst]. rewrite E. reflexivity.
Qed.

Lemma trailing_slash_sends_empty_method_witness :
  let w := Sample.world (RecvReply None) in
  callTarget w Sample.globals ["unix:/run/sock/"]
  = ([EvNewConnection "unix:/run/sock"], Ret (Sample.service (RecvReply None), "")).
Proof.
  intro w.
  apply (trailing_slash_sends_empty_method w Sample.globals false
           ["unix:/run/sock/"] "unix:/run/sock" (Sample.service (RecvReply None)));
    reflexivity.
Defined.

(** ** Failed connections *)

Lemma DialFailure_no_transport (w : World) (t : list Event) (r : Res unit) :
  Forall no_transport t -> DialFailure w (t, r).
Proof.
  intro H. rewrite Forall_forall in H.
  split; intros x e _ Hin; apply H in Hin; discriminate Hin.
Qed.

Lemma FlagSet_Parse_DialFailure (w : World) (fs : Flag.FlagSet)
    (set : option Flag.FlagSet) (arg_help : string) (args : list string)
    (k : Flag.Actual * list string -> M unit) :
  (forall actual rest, DialFailure w (k (actual, rest))) ->
  DialFailure w (bind (FlagSet_Parse w fs (printUsage w set arg_help) args) k).
Proof.
  intro Hk. unfold FlagSet_Parse.
  destruct (Flag.Parse (Flag.Formal fs) args []) as [actual rest | e].
  - rewrite bind_ret_l. apply Hk.
  - destruct (printUsage_exits w set arg_help) as [t [E [Ht _]]]. rewrite E.
    destruct e; cbn; apply DialFailure_no_transport; repeat constructor; exact Ht.
Qed.

Ltac dial_end :=
  unfold DialFailure, trace; cbn;
  split; intros ? ? Herr Hin; cbn in Hin;
  repeat match goal with
         | H : _ \/ _ |- _ => destruct H
         | H : False |- _ => destruct H
         end;
  try discriminate;
  match goal with
  | H : _ = _ :> Event |- _ => inversion H; subst; clear H
  end;
  try congruence;
  match goal with
  | H1 : ?x = Err _, H2 : ?x = Err _ |- _ => rewrite H1 in H2; inversion H2; subst
  end;
  unfold ended_by_dial, trace; cbn; repeat split; auto 20.

Lemma varlinkInfo_DialFailure (w : World) (g : Globals) (args : list string) :
  DialFailure w (varlinkInfo w g args).
Proof.
  unfold varlinkInfo, infoUsage.
  apply FlagSet_Parse_DialFailure. intros actual rest. cbn [fst snd].
  unfold when, infoUsage, printUsage, infoTarget, connectBridge, connectAddress,
    when, errPrintf, Fprint_stderr, Print_stdout, emit, os_Exit, ret.
  repeat (next_case; cbn); dial_end.
Qed.

Lemma varlinkHelp_DialFailure (w : World) (g : Globals) (args : list string) :
  DialFailure w (varlinkHelp w g args).
Proof.
  unfold varlinkHelp, helpUsage.
  apply FlagSet_Parse_DialFailure. intros actual rest. cbn [fst snd].
  unfold when, helpUsage, printUsage, helpTarget, connectBridge, connectAddress,
    when, errPrintf, Fprint_stderr, Print_stdout, emit, os_Exit, ret.
  repeat (next_case; cbn); dial_end.
Qed.

Lemma varlinkCall_DialFailure (w : World) (g : Globals) (args : list string) :
  DialFailure w (varlinkCall w g args).
Proof.
  unfold varlinkCall, callUsage.
  apply FlagSet_Parse_DialFailure. intros actual rest. cbn [fst snd].
  unfold when, varlinkCall_body, callInvoke, callRender, callParameters,
    callUsage, printUsage, callTarget, connectBridge, connectAddress,
    when, errPrintf, Fprint_stderr, Print_stdout, emit, os_Exit, ret, panic, block.
  repeat (next_case; cbn); dial_end.
Qed.

(** X17. A refused connection ends the run.  In every run of [main], if the
    address that was dialed, or the bridge that was started, is one the
    transport refuses, then that attempt is the only call into the
    transport, the diagnostic names the target and the cause, and the exit
    code is 2. *)
Theorem failed_connection_is_terminal (w : World) (args : list string) :
  DialFailure w (main w args).
Proof.
  destruct (Flag.Parse (Flag.Formal commandLine) args []) as [actual rest | e] eqn:E.
  - rewrite (main_parsed w args actual rest E). unfold dispatch.
    destruct (String.eqb (Flag.Arg rest 0) "info");
      [apply varlinkInfo_DialFailure |].
    destruct (String.eqb (Flag.Arg rest 0) "help");
      [apply varlinkHelp_DialFailure |].
    destruct (String.eqb (Flag.Arg rest 0) "call");
      [apply varlinkCall_DialFailure |].
    destruct (printUsage_exits w None "") as [t [Eu [Ht _]]]. rewrite Eu.
    apply DialFailure_no_transport. exact Ht.
  - unfold main, FlagSet_Parse. rewrite E.
    destruct (printUsage_exits w None "") as [t [Eu [Ht _]]]. rewrite Eu.
    destruct e; cbn; apply DialFailure_no_transport; repeat constructor; exact Ht.
Qed.

(** X18. [info] takes its whole argument as the address.  With no bridge
    configured, a non-empty positional argument is dialed as it is, slashes
    included, and it is the address named when [GetInfo] fails. *)
Theorem info_dials_argument_verbatim (w : World) (g : Globals)
    (args : list string) (actual : Flag.Actual) (rest : list string)
    (con : Connection) :
  Flag.Parse (Flag.Formal infoFlags) args [] = Flag.Parsed actual rest ->
  Flag.boolVar actual "help" false = false ->
  bridge g = "" ->
  Flag.Arg rest 0 <> "" ->
  NewConnection w (Flag.Arg rest 0) = Ok con ->
  (exists tail,
     trace (varlinkInfo w g args)
     = EvNewConnection (Flag.Arg rest 0) :: EvGetInfo :: tail)
  /\ (forall e, GetInfo con = Err e ->
        varlinkInfo w g args =
        ([EvNewConnection (Flag.Arg rest 0); EvGetInfo;
          EvStderr (errorBoldRed g ++ " ");
          EvStderr ("Cannot get info for '" ++ Flag.Arg rest 0 ++ "': " ++ e ++ nl)],
         Halt (Exited 2))).
Proof.
  intros Hp Hh Hb Ha Hc.
  assert (E : varlinkInfo w g args =
              (emit (EvNewConnection (Flag.Arg rest 0)) ;;
               emit EvGetInfo ;;
               match GetInfo con with
               | Err e =>
                   errPrintf g ("Cannot get info for '" ++ Flag.Arg rest 0
                                ++ "': " ++ e ++ nl) ;;
                   os_Exit 2
               | Ok info =>
                   let bold := Sprint w (NoColor g) Bold in
                   Print_stdout (bold "Vendor:" ++ " " ++ vendor info ++ nl) ;;
                   Print_stdout (bold "Product:" ++ " " ++ product info ++ nl) ;;
                   Print_stdout (bold "Version:" ++ " " ++ version info ++ nl) ;;
                   Print_stdout (bold "URL:" ++ " " ++ url info ++ nl) ;;
                   Print_stdout (bold "Interfaces:" ++ nl ++ "  "
                                 ++ String.concat (nl ++ "  ") (interfaces info)
                                 ++ nl ++ nl)
               end)).
  { unfold varlinkInfo, FlagSet_Parse. rewrite Hp, bind_ret_l. cbn [fst snd].
    rewrite Hh. unfold when at 1. rewrite bind_ret_l.
    unfold infoTarget. rewrite (bridge_len_empty g Hb).
    apply String.eqb_neq in Ha. rewrite Ha. cbn [andb]. unfold when.
    rewrite bind_ret_l. unfold connectAddress. rewrite Hc. reflexivity. }
  rewrite E. split.
  - destruct (GetInfo con); eexists; reflexivity.
  - intros e He. rewrite He. reflexivity.
Qed.

Lemma info_dials_argument_verbatim_witness :
  exists tail,
    trace (varlinkInfo (Sample.world RecvNever) Sample.globals ["unix:/run/a/b"])
    = EvNewConnection "unix:/run/a/b" :: EvGetInfo :: tail.
Proof.
  apply (info_dials_argument_verbatim (Sample.world RecvNever) Sample.globals
           ["unix:/run/a/b"] [] ["unix:/run/a/b"] (Sample.service RecvNever));
    [reflexivity | reflexivity | reflexivity | discriminate | reflexivity].
Defined.
